(** * Bubble shooter: the collision, landing and explosion core of [src/js/index.ts]

    A shallow embedding of the class [BubbleShooter] (and of the refactored
    copy with the classes [Bullet] and [Gun], whose method bodies are the same
    code) together with the properties its specification states.

    Conventions of the embedding.
    - A JavaScript [number] is an IEEE 754 binary64 value: Rocq's primitive
      [float], with the kernel's [+ - * /], [<], and [===] ([PrimFloat.eqb]).
    - The score and the loop counters only ever hold small integers, on which
      binary64 arithmetic is exact: the score is a [Z], a counter a [nat].
    - A plain object used as a dictionary is an association list in insertion
      order (none of the keys is an array index, so [Object.entries] enumerates
      in insertion order).
    - A grid key is the string [`${x} ${y}`]; printing a number and parsing it
      back is the identity except that [-0] prints as ["0"], so a key is
      modelled by the pair of numbers it parses to, and [coord2Index] erases
      the sign of zero.
    - [Math.hypot] is only specified up to an implementation approximation,
      [_.sample] is random, and the rotation matrices come from [Math.cos]
      and [Math.sin]: they are the parameters of the section [Game].
    - [explode] is recursive and [fireBullet] loops: both take fuel, and
      return nothing when it runs out.  [fireBullet] awaits a timer between
      two turns of its loop; a flight is modelled without events in between.
    - Drawing on the canvas has no effect on the game state: the drawing
      methods are functions from the state to the list of calls they make on
      the 2D context.  The text written to the [#score] element is kept as a
      list of writes. *)

From Stdlib Require Import List ZArith Lia Bool Arith.
From Stdlib Require Import Floats.
Import ListNotations.

Set Implicit Arguments.

(* Decimal literals are rounded to the nearest binary64, as JavaScript reads them. *)
Set Warnings "-inexact-float".

(** ** Numbers *)

Module Number.
Local Open Scope float_scope.

(** The number read back from the printed form of [a]: [-0] prints as ["0"]. *)
Definition unsigned_zero (a : float) : float := if a =? 0 then 0 else a.

(** The value of a counter started at [0] after [n] increments [++]. *)
Fixpoint of_count (n : nat) : float :=
  match n with
  | O => 0
  | S m => of_count m + 1
  end.

(** [Math.min(a, b)]: [NaN] is contagious and [-0] is below [+0]. *)
Definition min2 (a b : float) : float :=
  if is_nan a || is_nan b then nan
  else if b <? a then b
  else if (a =? b) && PrimFloat.Leibniz.eqb b neg_zero then b
  else a.

(** [Math.min(...l)]: [+Infinity] on no argument. *)
Definition Math_min (l : list float) : float := fold_left min2 l infinity.
End Number.

(** ** class Vec2D *)

Module Vec2D.
Local Open Scope float_scope.

Record t : Set := mk { x : float; y : float }.

Definition toXY (v : t) : float * float := (x v, y v).
Definition add (v w : t) : t := mk (x v + x w) (y v + y w).
Definition sub (v w : t) : t := mk (x v - x w) (y v - y w).
Definition scalarMul (v : t) (s : float) : t := mk (x v * s) (y v * s).
Definition scalarDiv (v : t) (s : float) : t := mk (x v / s) (y v / s).
End Vec2D.

(** ** enum Color, and the dictionary type *)

Inductive Color : Set := Orange | White | Blue.

Definition Color_eqb (a b : Color) : bool :=
  match a, b with
  | Orange, Orange | White, White | Blue, Blue => true
  | _, _ => false
  end.

(** A cell is [Some c] (a bubble of colour [c]) or [None] (JavaScript [null]). *)
Definition Cell : Set := option Color.

Definition Cell_eqb (a b : Cell) : bool :=
  match a, b with
  | Some c, Some d => Color_eqb c d
  | None, None => true
  | _, _ => false
  end.

Definition Key : Set := Vec2D.t.

Definition Key_eqb (a b : Key) : bool :=
  PrimFloat.Leibniz.eqb (Vec2D.x a) (Vec2D.x b)
  && PrimFloat.Leibniz.eqb (Vec2D.y a) (Vec2D.y b).

Definition coord2Index (coord : Vec2D.t) : Key :=
  Vec2D.mk (Number.unsigned_zero (Vec2D.x coord)) (Number.unsigned_zero (Vec2D.y coord)).

Definition key2Coord (index : Key) : Vec2D.t := index.

(** Objects keyed by grid keys: [obj[k]], [obj[k] = v], [delete obj[k]],
    [Object.entries], [Object.keys], [Object.values]. *)
Module Obj.
Section Dict.
Variable V : Type.

Definition t := list (Key * V).

Fixpoint get (o : t) (k : Key) : option V :=
  match o with
  | [] => None
  | (k', v) :: o' => if Key_eqb k' k then Some v else get o' k
  end.

Fixpoint set (o : t) (k : Key) (v : V) : t :=
  match o with
  | [] => [(k, v)]
  | (k', v') :: o' =>
      if Key_eqb k' k then (k', v) :: o' else (k', v') :: set o' k v
  end.

Fixpoint delete (o : t) (k : Key) : t :=
  match o with
  | [] => []
  | (k', v') :: o' => if Key_eqb k' k then o' else (k', v') :: delete o' k
  end.

Definition entries (o : t) : list (Key * V) := o.
Definition keys (o : t) : list Key := map fst o.
Definition values (o : t) : list V := map snd o.
End Dict.
End Obj.

Definition BubbleGrid := Obj.t Cell.

(** ** The state of a [BubbleShooter] *)

Inductive ScoreText : Set :=
| SCORE (n : Z)
| YOU_WON.

Record State : Type := mkState {
  gun : Vec2D.t;
  bubbles : BubbleGrid;
  bullet : Vec2D.t;
  bulletColor : Color;
  time : float;
  score : Z;
  wantedLandingPosition : Vec2D.t;
  (** how many colours [_.sample] has handed out *)
  sampled : nat;
  (** the texts written to [#score], the latest first *)
  scoreWrites : list ScoreText
}.

Definition set_gun (v : Vec2D.t) (s : State) : State :=
  mkState v (bubbles s) (bullet s) (bulletColor s) (time s) (score s)
          (wantedLandingPosition s) (sampled s) (scoreWrites s).
Definition set_bubbles (g : BubbleGrid) (s : State) : State :=
  mkState (gun s) g (bullet s) (bulletColor s) (time s) (score s)
          (wantedLandingPosition s) (sampled s) (scoreWrites s).
Definition set_bullet (v : Vec2D.t) (s : State) : State :=
  mkState (gun s) (bubbles s) v (bulletColor s) (time s) (score s)
          (wantedLandingPosition s) (sampled s) (scoreWrites s).
Definition set_bulletColor (c : Color) (s : State) : State :=
  mkState (gun s) (bubbles s) (bullet s) c (time s) (score s)
          (wantedLandingPosition s) (sampled s) (scoreWrites s).
Definition set_time (t : float) (s : State) : State :=
  mkState (gun s) (bubbles s) (bullet s) (bulletColor s) t (score s)
          (wantedLandingPosition s) (sampled s) (scoreWrites s).
Definition set_score (n : Z) (s : State) : State :=
  mkState (gun s) (bubbles s) (bullet s) (bulletColor s) (time s) n
          (wantedLandingPosition s) (sampled s) (scoreWrites s).
Definition set_wantedLandingPosition (v : Vec2D.t) (s : State) : State :=
  mkState (gun s) (bubbles s) (bullet s) (bulletColor s) (time s) (score s)
          v (sampled s) (scoreWrites s).
Definition set_sampled (n : nat) (s : State) : State :=
  mkState (gun s) (bubbles s) (bullet s) (bulletColor s) (time s) (score s)
          (wantedLandingPosition s) n (scoreWrites s).
Definition write_score (w : ScoreText) (s : State) : State :=
  mkState (gun s) (bubbles s) (bullet s) (bulletColor s) (time s) (score s)
          (wantedLandingPosition s) (sampled s) (w :: scoreWrites s).

(** ** Constants *)

Definition PLAYGROUND_WIDTH : nat := 40.
Definition PLAYGROUND_HEIGHT : nat := 30.

(** ** getSurroundingBubbles *)

Section Surrounding.
Local Open Scope float_scope.

(** The condition of the first loop: [b] is at one of the six offsets from
    [coord]. *)
Definition is_surrounding (coord b : Vec2D.t) : bool :=
  let bx := Vec2D.x b in
  let byy := Vec2D.y b in
  let cx := Vec2D.x coord in
  let cy := Vec2D.y coord in
  ((bx =? cx - 0.5) && (byy =? cy + 1))
  || ((bx =? cx + 0.5) && (byy =? cy + 1))
  || ((bx =? cx - 1) && (byy =? cy))
  || ((bx =? cx + 1) && (byy =? cy))
  || ((bx =? cx - 0.5) && (byy =? cy - 1))
  || ((bx =? cx + 0.5) && (byy =? cy - 1)).

(** The condition under which the second loop keeps an entry:
    without [keepOnly] the free spots, with it the cells of that colour. *)
Definition is_kept (keepOnly : option Color) (color : Cell) : bool :=
  match keepOnly with
  | None => Cell_eqb color None
  | Some c => Cell_eqb color (Some c)
  end.

Definition getSurroundingBubbles
           (bubbles : BubbleGrid) (coord : Vec2D.t) (keepOnly : option Color)
  : BubbleGrid :=
  let surroundingBubbles :=
    fold_left
      (fun (acc : BubbleGrid) (e : Key * Cell) =>
         if is_surrounding coord (key2Coord (fst e))
         then Obj.set acc (fst e) (snd e) else acc)
      (Obj.entries bubbles) [] in
  fold_left
    (fun (acc : BubbleGrid) (e : Key * Cell) =>
       if is_kept keepOnly (snd e) then acc else Obj.delete acc (fst e))
    (Obj.entries surroundingBubbles) surroundingBubbles.
End Surrounding.

(** ** explode *)

Definition updateScore (s : State) : State := write_score (SCORE (score s)) s.

(** The body of the [for] loop of [explode], with the recursive call as a
    parameter; [None] is a run that did not finish within the fuel. *)
Fixpoint explode_each (rec : State -> Vec2D.t -> option State)
         (ks : list Key) (s : State) : option State :=
  match ks with
  | [] => Some s
  | surroundingBubble :: ks' =>
      match Obj.get (bubbles s) surroundingBubble with
      | Some None => explode_each rec ks' s
      | _ =>
          let s1 := set_score (score s + 10) s in
          let s2 := updateScore s1 in
          let s3 := set_bubbles (Obj.set (bubbles s2) surroundingBubble None) s2 in
          match rec s3 (key2Coord surroundingBubble) with
          | Some s4 => explode_each rec ks' s4
          | None => None
          end
      end
  end.

Fixpoint explode (fuel : nat) (s : State) (coord : Vec2D.t) : option State :=
  match fuel with
  | O => None
  | S fuel' =>
      let surroundingBubbles :=
        getSurroundingBubbles (bubbles s) coord (Some (bulletColor s)) in
      explode_each (explode fuel') (Obj.keys surroundingBubbles) s
  end.

(** ** Results of the operations that can fail *)

(** [Throws] is the [TypeError] of [key2Coord(undefined)]; [OutOfFuel] is a
    run of the model that was cut short, never a result of the program. *)
Inductive Result (A : Type) : Type :=
| Returns (a : A)
| Throws
| OutOfFuel.

Arguments Returns {A} a.
Arguments Throws {A}.
Arguments OutOfFuel {A}.

(** How the [while] loop of [fireBullet] is left: by the [return] of the
    out-of-bounds branch, or because its condition failed. *)
Inductive LoopExit : Set :=
| Penalised
| AboutToCollide.

Inductive Direction : Set := Left | Right.

Definition Matrix : Set := (float * float) * (float * float).

(** ** A small game, to run the definitions on

    A piece of lattice with three rows; the bubble at [(0.5, 2)] is the one a
    bullet shot straight up from the origin touches first. *)

Module Example.
Local Open Scope float_scope.

(** The IEEE 754 formula for [Math.hypot]. *)
Definition hypot (x y : float) : float := sqrt (x * x + y * y).

Definition sampler (n : nat) : Color :=
  match Nat.modulo n 3 with
  | O => Orange
  | S O => White
  | _ => Blue
  end.

Definition counterclockwise : Matrix :=
  ((0.9999619230641713, 0.008726535498373935),
   (-0.008726535498373935, 0.9999619230641713)).

Definition clockwise : Matrix :=
  ((0.9999619230641713, -0.008726535498373935),
   (0.008726535498373935, 0.9999619230641713)).

Definition grid : BubbleGrid :=
  [ (Vec2D.mk (-1) 3, Some White); (Vec2D.mk 0 3, Some Orange); (Vec2D.mk 1 3, Some Orange);
    (Vec2D.mk (-0.5) 2, None); (Vec2D.mk 0.5 2, Some Orange); (Vec2D.mk 1.5 2, None);
    (Vec2D.mk (-1) 1, None); (Vec2D.mk 0 1, None); (Vec2D.mk 1 1, None) ].

(** The grid without any bubble. *)
Definition empty_grid : BubbleGrid := map (fun e => (fst e, None)) grid.

(** The start of a round with a bullet of colour [c], the gun pointing up. *)
Definition round (g : BubbleGrid) (c : Color) : State :=
  mkState (Vec2D.mk 0 1) g (Vec2D.mk 0 0) c 0 0%Z (Vec2D.mk 0 0) 0 [].

(** The bullet of colour [c] has flown to [(0, 1.5)] and touches [(0.5, 2)]. *)
Definition touching (c : Color) : State :=
  mkState (Vec2D.mk 0 1) grid (Vec2D.mk 0 1.5) c 2.25 0%Z (Vec2D.mk 0.5 2) 0 [].

(** The bullet of colour [c] has been placed in the free cell [(-0.5, 2)]. *)
Definition landing_cell : Key := Vec2D.mk (-0.5) 2.

Definition placed (c : Color) : State :=
  set_bubbles (Obj.set grid landing_cell (Some c))
              (set_bullet (key2Coord landing_cell) (touching c)).

(** The grid with a white bubble in every cell: no room is left to land. *)
Definition full_grid : BubbleGrid := map (fun e => (fst e, Some White)) grid.

(** On that grid the bullet of colour [c], still at the origin, touches the
    bubble at [(0, 1)]. *)
Definition walled (c : Color) : State :=
  set_wantedLandingPosition (Vec2D.mk 0 1) (round full_grid c).
End Example.

(** ** The game, over its two unspecified library functions *)

Section Game.
Local Open Scope float_scope.
Set Default Proof Using "Type".

(** [Math.hypot(x, y)]. *)
Variable Math_hypot : float -> float -> float.

(** The colour returned by the [n]-th call of [_.sample(Object.values(Color))]. *)
Variable sample : nat -> Color.

(** The two rotation matrices, built from [Math.cos] and [Math.sin]. *)
Variable MATRIX_ROTATE_COUNTERCLOCKWISE : Matrix.
Variable MATRIX_ROTATE_CLOCKWISE : Matrix.

(** [Vec2D.length]. *)
Definition length (v : Vec2D.t) : float := Math_hypot (Vec2D.x v) (Vec2D.y v).

Definition createGun : Vec2D.t := Vec2D.mk 0 1.

Definition createBullet : Vec2D.t := Vec2D.mk 0 0.

Definition pickBulletColor (s : State) : Color * State :=
  (sample (sampled s), set_sampled (S (sampled s)) s).

Definition declareWin (s : State) : State := write_score YOU_WON s.

(** [Object.values(this.bubbles).every(x => x === null)] *)
Definition every_null (g : BubbleGrid) : bool :=
  forallb (fun c => Cell_eqb c None) (Obj.values g).

Definition newRound (s : State) : State :=
  let s1 := set_bullet createBullet s in
  let (color, s2) := pickBulletColor s1 in
  let s3 := set_bulletColor color s2 in
  let s4 := set_time 0 s3 in
  if every_null (bubbles s4) then declareWin s4 else s4.

(** *** landBullet *)

Definition landing_distances (s : State) : Obj.t float :=
  let potentialLandingPositions :=
    getSurroundingBubbles (bubbles s) (wantedLandingPosition s) None in
  fold_left
    (fun (distances : Obj.t float) (e : Key * Cell) =>
       let coord := key2Coord (fst e) in
       let distanceVector := Vec2D.sub coord (wantedLandingPosition s) in
       let distance := abs (length distanceVector) in
       Obj.set distances (fst e) distance)
    (Obj.entries potentialLandingPositions) [].

(** [Object.keys(distances).find(d => distances[d] === minDistance)] *)
Definition finalPosition (s : State) : option Key :=
  let distances := landing_distances s in
  let minDistance := Number.Math_min (Obj.values distances) in
  find (fun d => match Obj.get distances d with
                 | Some v => v =? minDistance
                 | None => false
                 end)
       (Obj.keys distances).

(** [landBullet] up to and including [this.bubbles[finalPosition] = this.bulletColor]. *)
Definition placeBullet (s : State) : option (Key * State) :=
  match finalPosition s with
  | None => None
  | Some fp =>
      let s1 := set_bullet (key2Coord fp) s in
      Some (fp, set_bubbles (Obj.set (bubbles s1) fp (Some (bulletColor s1))) s1)
  end.

Definition landBullet (fuel : nat) (s : State) : Result State :=
  match placeBullet s with
  | None => Throws
  | Some (fp, s2) =>
      match explode fuel s2 (key2Coord fp) with
      | None => OutOfFuel
      | Some s3 => Returns (newRound s3)
      end
  end.

(** *** bulletIsAboutToCollide *)

Fixpoint first_collision (bullet : Vec2D.t) (es : list (Key * Cell)) : option Vec2D.t :=
  match es with
  | [] => None
  | (index, color) :: es' =>
      match color with
      | Some _ =>
          let bubbleCoords := key2Coord index in
          if length (Vec2D.sub bubbleCoords bullet) <? 1.12
          then Some bubbleCoords
          else first_collision bullet es'
      | None => first_collision bullet es'
      end
  end.

Definition bulletIsAboutToCollide (s : State) : bool * State :=
  match first_collision (bullet s) (Obj.entries (bubbles s)) with
  | Some bubbleCoords => (true, set_wantedLandingPosition bubbleCoords s)
  | None => (false, s)
  end.

(** *** fireBullet *)

Definition out_of_playground (b : Vec2D.t) : bool :=
  let w := Number.of_count PLAYGROUND_WIDTH in
  let h := Number.of_count PLAYGROUND_HEIGHT in
  ((Vec2D.x b <? - (w / 2 + 1)) || (w / 2 + 1 <? Vec2D.x b))
  || ((Vec2D.y b <? 0) || (h <? Vec2D.y b)).

Definition gunOrigin : Vec2D.t := Vec2D.mk 0 0.

(** One more tick of the flight: the body of the loop after its two tests. *)
Definition advance (directionVector : Vec2D.t) (s : State) : State :=
  let s1 := set_bullet (Vec2D.add gunOrigin (Vec2D.scalarMul directionVector (time s))) s in
  set_time (time s1 + 0.75) s1.

(** The out-of-bounds branch. *)
Definition penalise (s : State) : State :=
  newRound (updateScore (set_score (score s - 10) s)).

Fixpoint flight (fuel : nat) (directionVector : Vec2D.t) (s : State)
  : option (LoopExit * State) :=
  match fuel with
  | O => None
  | S fuel' =>
      let (collide, s1) := bulletIsAboutToCollide s in
      if collide then Some (AboutToCollide, s1)
      else if out_of_playground (bullet s1) then Some (Penalised, penalise s1)
      else flight fuel' directionVector (advance directionVector s1)
  end.

Definition aim (s : State) : Vec2D.t :=
  let directionVector := Vec2D.sub (gun s) gunOrigin in
  Vec2D.scalarDiv directionVector (length directionVector).

Definition fireBullet (fuel : nat) (s : State) : Result State :=
  match flight fuel (aim s) s with
  | None => OutOfFuel
  | Some (Penalised, s') => Returns s'
  | Some (AboutToCollide, s') => landBullet fuel s'
  end.

(** *** createBubbleGrid and the constructor *)

Definition create_cell (row col : nat) (acc : BubbleGrid * nat) : BubbleGrid * nat :=
  let (bubbleGrid, n) := acc in
  let offset := if Nat.odd row then 0.5 else 0 in
  let index :=
    coord2Index
      (Vec2D.mk
         (Number.of_count col + offset - Number.of_count PLAYGROUND_WIDTH / 2)
         (- Number.of_count row + Number.of_count PLAYGROUND_HEIGHT)) in
  if (row <? 5)%nat
  then (Obj.set bubbleGrid index (Some (sample n)), S n)
  else (Obj.set bubbleGrid index None, n).

(** The grid, and the number of colours sampled, given that [n] were before. *)
Definition createBubbleGrid (n : nat) : BubbleGrid * nat :=
  fold_left
    (fun acc row =>
       fold_left (fun acc col => create_cell row col acc)
                 (seq 0 PLAYGROUND_WIDTH) acc)
    (seq 0 PLAYGROUND_HEIGHT) ([], n).

Definition BubbleShooter_new (n : nat) (writes : list ScoreText) : State :=
  let (g, n1) := createBubbleGrid n in
  mkState createGun g createBullet (sample n1) 0 0%Z (Vec2D.mk 0 0) (S n1) writes.

(** *** The gun: rotateGun and the pointer *)

Definition matrixVectorMul (matrix : Matrix) (vector : Vec2D.t) : Vec2D.t :=
  let (col1, col2) := matrix in
  let rotatedCol1 := (fst col1 * Vec2D.x vector, snd col1 * Vec2D.x vector) in
  let rotatedCol2 := (fst col2 * Vec2D.y vector, snd col2 * Vec2D.y vector) in
  Vec2D.mk (fst rotatedCol1 + fst rotatedCol2) (snd rotatedCol1 + snd rotatedCol2).

Definition rotate (point : Vec2D.t) (direction : Direction) : Vec2D.t :=
  match direction with
  | Left => matrixVectorMul MATRIX_ROTATE_COUNTERCLOCKWISE point
  | Right => matrixVectorMul MATRIX_ROTATE_CLOCKWISE point
  end.

Definition rotateGun (direction : Direction) (s : State) : State :=
  set_gun (rotate (gun s) direction) s.

Definition SCALE : float := 10.

Definition canvas2Math (vector : Vec2D.t) : Vec2D.t :=
  Vec2D.mk
    (Vec2D.x vector / (2 * SCALE) - Number.of_count PLAYGROUND_WIDTH / 2)
    (- Vec2D.y vector / (2 * SCALE) + Number.of_count PLAYGROUND_HEIGHT).

(** The events [main] listens to, and rotating the gun. *)
Inductive Input : Set :=
| MouseMove (offset : Vec2D.t)
| MouseDown
| RotateGun (direction : Direction).

Definition handle (fuel : nat) (i : Input) (s : State) : Result State :=
  match i with
  | MouseMove offset => Returns (set_gun (canvas2Math offset) s)
  | MouseDown => fireBullet fuel s
  | RotateGun d => Returns (rotateGun d s)
  end.

Fixpoint play (fuel : nat) (inputs : list Input) (s : State) : Result State :=
  match inputs with
  | [] => Returns s
  | i :: inputs' =>
      match handle fuel i s with
      | Returns s' => play fuel inputs' s'
      | Throws => Throws
      | OutOfFuel => OutOfFuel
      end
  end.

(** *** The canvas: math2Canvas and the drawing methods *)

Definition RADIUS : float := 1.
Definition GUN_LENGTH : float := 5.

Definition CANVAS_WIDTH : float :=
  (Number.of_count PLAYGROUND_WIDTH + 0.5) * 2 * RADIUS * SCALE.
Definition CANVAS_HEIGHT : float :=
  Number.of_count PLAYGROUND_HEIGHT * 2 * RADIUS * SCALE.

(** [Math.PI]: the number nearest to the real pi. *)
Definition Math_PI : float := 3.141592653589793.

Definition math2Canvas (vector : Vec2D.t) : Vec2D.t :=
  Vec2D.mk
    ((2 * SCALE) * (Vec2D.x vector + Number.of_count PLAYGROUND_WIDTH / 2))
    ((2 * SCALE) * (- Vec2D.y vector + Number.of_count PLAYGROUND_HEIGHT)).

(** The calls on the 2D context [ctx], and the assignments to its two
    style properties. *)
Inductive CanvasOp : Set :=
| clearRect (x y w h : float)
| beginPath
| arc (x y radius startAngle endAngle : float)
| fillStyle (color : Color)
| fill
| closePath
| moveTo (x y : float)
| lineTo (x y : float)
| strokeStyle (color : Color)
| stroke.

(** The calls of one turn of the loop of [drawBubbles]. *)
Definition drawBubble (e : Key * Cell) : list CanvasOp :=
  match snd e with
  | Some color =>
      let bubbleCoords := math2Canvas (key2Coord (fst e)) in
      [ beginPath;
        arc (Vec2D.x bubbleCoords + (2 * RADIUS * SCALE) / 2)
            (Vec2D.y bubbleCoords + (2 * RADIUS * SCALE) / 2)
            (RADIUS * SCALE) 0 (2 * Math_PI);
        fillStyle color;
        fill;
        closePath ]
  | None => []
  end.

Definition drawBubbles (s : State) : list CanvasOp :=
  flat_map drawBubble (Obj.entries (bubbles s)).

Definition drawGun (s : State) : list CanvasOp :=
  let initialPosition := math2Canvas (Vec2D.mk 0 0) in
  let gunPosition :=
    math2Canvas (Vec2D.scalarMul (Vec2D.scalarDiv (gun s) (length (gun s))) GUN_LENGTH) in
  [ beginPath;
    moveTo (Vec2D.x initialPosition) (Vec2D.y initialPosition - RADIUS * SCALE);
    lineTo (Vec2D.x gunPosition) (Vec2D.y gunPosition);
    strokeStyle White;
    stroke;
    closePath ].

Definition drawBullet (s : State) : list CanvasOp :=
  let bulletCoords := math2Canvas (bullet s) in
  [ beginPath;
    fillStyle (bulletColor s);
    arc (Vec2D.x bulletCoords)
        (Vec2D.y bulletCoords - (0.5 * 2 * RADIUS * SCALE))
        (SCALE * RADIUS) 0 (2 * Math_PI);
    fill;
    closePath ].

(** [reDraw], on the canvas sized by [setCanvasSize]. *)
Definition reDraw (s : State) : list CanvasOp :=
  clearRect 0 0 CANVAS_WIDTH CANVAS_HEIGHT
  :: drawBubbles s ++ drawGun s ++ drawBullet s.

(** ** Notions the properties are stated with *)

(** *** Well-formed grids *)

(** The grid is a JavaScript object: no key occurs twice. *)
Fixpoint unique_keys (V : Type) (o : Obj.t V) : bool :=
  match o with
  | [] => true
  | (k, _) :: o' => negb (existsb (Key_eqb k) (Obj.keys o')) && unique_keys o'
  end.

(** [===] on both coordinates. *)
Definition same_position (a b : Vec2D.t) : bool :=
  (Vec2D.x a =? Vec2D.x b) && (Vec2D.y a =? Vec2D.y b).

(** No two keys of the list parse to the same position. *)
Fixpoint distinct_positions (ks : list Key) : bool :=
  match ks with
  | [] => true
  | k :: ks' =>
      negb (existsb (fun k' => same_position (key2Coord k) (key2Coord k')) ks')
      && distinct_positions ks'
  end.

(** Among the keys [ks], a cell is around another exactly when that one is
    around it. *)
Definition symmetric_neighbours (ks : list Key) : bool :=
  forallb
    (fun a =>
       forallb (fun b => Bool.eqb (is_surrounding (key2Coord a) (key2Coord b))
                                  (is_surrounding (key2Coord b) (key2Coord a)))
               ks)
    ks.

(** *** Neighbours *)

(** The six positions [getSurroundingBubbles] compares the cells with. *)
Definition six_positions (coord : Vec2D.t) : list Vec2D.t :=
  let cx := Vec2D.x coord in
  let cy := Vec2D.y coord in
  [ Vec2D.mk (cx - 0.5) (cy + 1); Vec2D.mk (cx + 0.5) (cy + 1);
    Vec2D.mk (cx - 1) cy; Vec2D.mk (cx + 1) cy;
    Vec2D.mk (cx - 0.5) (cy - 1); Vec2D.mk (cx + 0.5) (cy - 1) ].

(** The six offsets, as vectors. *)
Definition six_offsets : list Vec2D.t :=
  [ Vec2D.mk (-0.5) 1; Vec2D.mk 0.5 1; Vec2D.mk (-1) 0; Vec2D.mk 1 0;
    Vec2D.mk (-0.5) (-1); Vec2D.mk 0.5 (-1) ].

(** The entries [getSurroundingBubbles] returns: around [coord], and kept. *)
Definition surrounds (coord : Vec2D.t) (keepOnly : option Color) (e : Key * Cell) : bool :=
  is_surrounding coord (key2Coord (fst e)) && is_kept keepOnly (snd e).

(** *** Explosions *)

Definition is_colored (c : Cell) : bool := negb (Cell_eqb c None).

(** The number of Colored cells. *)
Definition colored_count (g : BubbleGrid) : nat :=
  List.length (filter is_colored (Obj.values g)).

(** [chain g c a b]: [b] is reached from [a] by one or more steps, each to a
    cell of colour [c] of [g] that [getSurroundingBubbles] finds around the
    previous one. *)
Inductive chain (g : BubbleGrid) (c : Color) (a : Vec2D.t) : Key -> Prop :=
| chain_one (b : Key) :
    is_surrounding a (key2Coord b) = true ->
    Obj.get g b = Some (Some c) ->
    chain g c a b
| chain_more (m b : Key) :
    chain g c a m ->
    is_surrounding (key2Coord m) (key2Coord b) = true ->
    Obj.get g b = Some (Some c) ->
    chain g c a b.

(** The connected component of colour [c] that contains the cell [a]. *)
Definition component (g : BubbleGrid) (c : Color) (a : Key) (k : Key) : Prop :=
  k = a \/ chain g c (key2Coord a) k.

(** The cells Colored in [g] that are Empty in [g']. *)
Definition cleared_cells (g g' : BubbleGrid) : list Key :=
  filter
    (fun k => match Obj.get g k, Obj.get g' k with
              | Some (Some _), Some None => true
              | _, _ => false
              end)
    (Obj.keys g).

(** The fields [explode] never assigns. *)
Definition same_round (s s' : State) : Prop :=
  gun s' = gun s /\ bullet s' = bullet s /\ bulletColor s' = bulletColor s
  /\ time s' = time s /\ wantedLandingPosition s' = wantedLandingPosition s
  /\ sampled s' = sampled s.

(** What an explosion does between [s] and [s']: the keys stay; a cell keeps
    its state or goes from the bullet's colour to Empty, the latter only for
    [reached] cells; every [target] of the bullet's colour is cleared, and so
    is every cell of that colour around a cleared one; each cleared cell paid
    10 points. *)
Definition explosion (targets reached : Key -> Prop) (s s' : State) : Prop :=
  let g := bubbles s in
  let g' := bubbles s' in
  let c := bulletColor s in
  same_round s s'
  /\ Obj.keys g' = Obj.keys g
  /\ (forall k, Obj.get g' k = Obj.get g k
                \/ (Obj.get g k = Some (Some c) /\ Obj.get g' k = Some None /\ reached k))
  /\ (forall k, targets k -> Obj.get g k = Some (Some c) -> Obj.get g' k = Some None)
  /\ (forall m k, Obj.get g m = Some (Some c) -> Obj.get g' m = Some None ->
                  is_surrounding (key2Coord m) (key2Coord k) = true ->
                  Obj.get g k = Some (Some c) -> Obj.get g' k = Some None)
  /\ (colored_count g' <= colored_count g)%nat
  /\ (score s' + 10 * Z.of_nat (colored_count g') = score s + 10 * Z.of_nat (colored_count g))%Z.

(** A finished [explode(coord)]. *)
Definition explodes_to (coord : Vec2D.t) (s s' : State) : Prop :=
  explosion (fun k => is_surrounding coord (key2Coord k) = true)
            (chain (bubbles s) (bulletColor s) coord) s s'.

(** A finished [for] loop of [explode] over the keys [ks]. *)
Definition explodes_each_to (ks : list Key) (s s' : State) : Prop :=
  explosion (fun k => In k ks)
            (fun k => In k ks
                      \/ exists k0, In k0 ks
                                    /\ chain (bubbles s) (bulletColor s) (key2Coord k0) k)
            s s'.

(** *** Landings *)

(** The distance [landBullet] computes for the candidate [k]. *)
Definition landing_distance (s : State) (k : Key) : float :=
  abs (length (Vec2D.sub (key2Coord k) (wantedLandingPosition s))).

(** The candidates of [landBullet]: the names of its [potentialLandingPositions]. *)
Definition landing_candidates (s : State) : list Key :=
  Obj.keys (getSurroundingBubbles (bubbles s) (wantedLandingPosition s) None).

(** *** Flights *)

(** The test of [bulletIsAboutToCollide] on one entry of the grid: a bubble
    whose distance to the bullet is below 1.12. *)
Definition is_hit (bullet : Vec2D.t) (e : Key * Cell) : bool :=
  match snd e with
  | Some _ => length (Vec2D.sub (key2Coord (fst e)) bullet) <? 1.12
  | None => false
  end.

(** [s0] is [s] but for the position of the bullet and the flight time. *)
Definition in_flight (s s0 : State) : Prop :=
  gun s0 = gun s /\ bubbles s0 = bubbles s /\ bulletColor s0 = bulletColor s
  /\ score s0 = score s /\ wantedLandingPosition s0 = wantedLandingPosition s
  /\ sampled s0 = sampled s /\ scoreWrites s0 = scoreWrites s.

(** How the flight loop of a shot fired in [s] is left. *)
Definition shot_exit (fuel : nat) (s : State) : option LoopExit :=
  option_map fst (flight fuel (aim s) s).

(** Along the inputs played from [s]: the number of shots that landed and the
    number of shots that left the play area. *)
Fixpoint tally (fuel : nat) (inputs : list Input) (s : State) : nat * nat :=
  match inputs with
  | [] => (O, O)
  | i :: inputs' =>
      match handle fuel i s with
      | Returns s' =>
          let (landed, lost) := tally fuel inputs' s' in
          match i, shot_exit fuel s with
          | MouseDown, Some AboutToCollide => (S landed, lost)
          | MouseDown, Some Penalised => (landed, S lost)
          | _, _ => (landed, lost)
          end
      | _ => (O, O)
      end
  end.

(** The flight of a bullet that meets no bubble: the position and the time
    with which the loop finds it out of the playground. *)
Fixpoint free_flight (fuel : nat) (directionVector b : Vec2D.t) (t : float)
  : option (Vec2D.t * float) :=
  match fuel with
  | O => None
  | S fuel' =>
      if out_of_playground b then Some (b, t)
      else free_flight fuel' directionVector
                       (Vec2D.add gunOrigin (Vec2D.scalarMul directionVector t))
                       (t + 0.75)
  end.

(** *** The created grid, in the words of the specification *)

(** Row [r], column [c] is at [x = c + (r odd ? 0.5 : 0) - width / 2],
    [y = - r + height]. *)
Definition cell_position (row col : nat) : Vec2D.t :=
  Vec2D.mk
    (Number.of_count col + (if Nat.odd row then 0.5 else 0)
     - Number.of_count PLAYGROUND_WIDTH / 2)
    (- Number.of_count row + Number.of_count PLAYGROUND_HEIGHT).

(** One entry per row and column, rows first; the first five rows Colored,
    with the colours sampled in that order after the [n] sampled before. *)
Definition dense_grid (n : nat) : BubbleGrid :=
  flat_map
    (fun row =>
       map (fun col =>
              (cell_position row col,
               if (row <? 5)%nat
               then Some (sample (col + row * PLAYGROUND_WIDTH + n))
               else None))
           (seq 0 PLAYGROUND_WIDTH))
    (seq 0 PLAYGROUND_HEIGHT).

(** The keys of the created grid, and the grids that have them. *)
Definition lattice_keys : list Key :=
  flat_map (fun row => map (cell_position row) (seq 0 PLAYGROUND_WIDTH))
           (seq 0 PLAYGROUND_HEIGHT).

Definition on_lattice (g : BubbleGrid) : Prop := Obj.keys g = lattice_keys.

(** *** The order of numbers *)

(** The order of two numbers that are not [NaN], read on their IEEE 754
    description. *)
Definition SFle (a b : spec_float) : Prop :=
  SFcompare a b = Some Lt \/ SFcompare a b = Some Eq.

(** Splits a goal on every comparison of exponents and mantissas in it. *)
Ltac compare_cases :=
  repeat match goal with
         | H : context [Z.compare ?a ?b] |- _ => destruct (Z.compare_spec a b)
         | |- context [Z.compare ?a ?b] => destruct (Z.compare_spec a b)
         | H : context [Pos.compare_cont Eq ?a ?b] |- _ =>
             change (Pos.compare_cont Eq a b) with (Pos.compare a b) in H
         | |- context [Pos.compare_cont Eq ?a ?b] =>
             change (Pos.compare_cont Eq a b) with (Pos.compare a b)
         | H : context [Pos.compare ?a ?b] |- _ => destruct (Pos.compare_spec a b)
         | |- context [Pos.compare ?a ?b] => destruct (Pos.compare_spec a b)
         end.

(** *** Games *)

(** The number of shots among the inputs. *)
Fixpoint count_shots (inputs : list Input) : nat :=
  match inputs with
  | [] => O
  | MouseDown :: inputs' => S (count_shots inputs')
  | _ :: inputs' => count_shots inputs'
  end.

(** *** Drawings *)

Definition is_arc (op : CanvasOp) : bool :=
  match op with
  | arc _ _ _ _ _ => true
  | _ => false
  end.

(** The circle of centre [(cx, cy)] and radius [r] lies within the canvas. *)
Definition inside_canvas (cx cy r : float) : bool :=
  (0 <=? cx - r) && (cx + r <=? CANVAS_WIDTH)
  && (0 <=? cy - r) && (cy + r <=? CANVAS_HEIGHT).

(** The image of a vector in the vertical axis through the gun. *)
Definition mirror (v : Vec2D.t) : Vec2D.t := Vec2D.mk (- Vec2D.x v) (Vec2D.y v).

(** The bullet touches a bubble around which [landBullet] finds no cell to
    land in. *)
Definition blocked (s : State) : Prop :=
  exists w, first_collision (bullet s) (Obj.entries (bubbles s)) = Some w
            /\ finalPosition (set_wantedLandingPosition w s) = None.

(** The colours assigned to [fillStyle], in the order of the calls. *)
Definition fill_colors (ops : list CanvasOp) : list Color :=
  flat_map (fun op => match op with
                      | fillStyle color => [color]
                      | _ => []
                      end) ops.

(** The colours of the bubbles of a grid, in the order of its entries. *)
Definition bubble_colors (g : BubbleGrid) : list Color :=
  flat_map (fun c : Cell => match c with
                            | Some color => [color]
                            | None => []
                            end) (Obj.values g).

(** The centre of the circle [drawBubbles] draws for the cell of key [k]. *)
Definition bubble_centre (k : Key) : Vec2D.t :=
  Vec2D.mk (Vec2D.x (math2Canvas (key2Coord k)) + (2 * RADIUS * SCALE) / 2)
           (Vec2D.y (math2Canvas (key2Coord k)) + (2 * RADIUS * SCALE) / 2).

(** The centre of the circle [drawBullet] draws for a bullet at [p]. *)
Definition bullet_centre (p : Vec2D.t) : Vec2D.t :=
  Vec2D.mk (Vec2D.x (math2Canvas p))
           (Vec2D.y (math2Canvas p) - (0.5 * 2 * RADIUS * SCALE)).

(** ** Facts on keys and objects *)

Unset Implicit Arguments.

(** *** The order on numbers *)

Lemma SFcompare_swap (a b : spec_float) :
  SFcompare b a = option_map CompOpp (SFcompare a b).
Proof.
  destruct a as [[]|[]| |[] ma ea], b as [[]|[]| |[] mb eb]; simpl; try reflexivity;
    compare_cases; simpl; try reflexivity; try lia.
Qed.

Lemma SFle_trans (a b c : spec_float) : SFle a b -> SFle b c -> SFle a c.
Proof.
  unfold SFle.
  destruct a as [[]|[]| |[] ma ea], b as [[]|[]| |[] mb eb], c as [[]|[]| |[] mc ec];
    simpl; try (intuition congruence);
    compare_cases; simpl; try (intuition congruence); try lia.
Qed.

Lemma SFeq_trans (a b c : spec_float) :
  SFcompare a b = Some Eq -> SFcompare b c = Some Eq -> SFcompare a c = Some Eq.
Proof.
  destruct a as [[]|[]| |[] ma ea], b as [[]|[]| |[] mb eb], c as [[]|[]| |[] mc ec];
    simpl; try congruence;
    compare_cases; simpl; try congruence; try lia.
Qed.

Lemma SFcompare_refl (a : spec_float) :
  SFcompare a a = Some Eq \/ a = S754_nan.
Proof.
  destruct a as [[]|[]| |[] ma ea]; simpl; auto; left;
    rewrite Z.compare_refl; change (Pos.compare_cont Eq ma ma) with (Pos.compare ma ma);
    now rewrite Pos.compare_refl.
Qed.

Lemma SFcompare_None (a b : spec_float) :
  SFcompare a b = None <-> a = S754_nan \/ b = S754_nan.
Proof.
  destruct a as [[]|[]| |[] ma ea], b as [[]|[]| |[] mb eb]; simpl;
    split; intros H; try discriminate; auto; destruct H; discriminate.
Qed.

Section NumberOrder.
Local Open Scope float_scope.
Implicit Types a b c : float.

Lemma eqb_Eq a b : (a =? b) = true <-> SFcompare (Prim2SF a) (Prim2SF b) = Some Eq.
Proof.
  rewrite eqb_spec. unfold SFeqb.
  destruct (SFcompare (Prim2SF a) (Prim2SF b)) as [[]|]; split; congruence.
Qed.

Lemma ltb_Lt a b : (a <? b) = true <-> SFcompare (Prim2SF a) (Prim2SF b) = Some Lt.
Proof.
  rewrite ltb_spec. unfold SFltb.
  destruct (SFcompare (Prim2SF a) (Prim2SF b)) as [[]|]; split; congruence.
Qed.

Lemma leb_le a b : (a <=? b) = true <-> SFle (Prim2SF a) (Prim2SF b).
Proof.
  rewrite leb_spec. unfold SFleb, SFle.
  destruct (SFcompare (Prim2SF a) (Prim2SF b)) as [[]|]; split;
    try discriminate; auto; intros [H|H]; discriminate.
Qed.

Lemma is_nan_false a : is_nan a = false <-> Prim2SF a <> S754_nan.
Proof.
  unfold is_nan. rewrite negb_false_iff, eqb_Eq. split.
  - intros H E. rewrite E in H. discriminate.
  - intros H. destruct (SFcompare_refl (Prim2SF a)) as [R|R];
      [exact R | contradiction].
Qed.

Lemma eqb_sym a b : (a =? b) = (b =? a).
Proof.
  rewrite !eqb_spec. unfold SFeqb. rewrite (SFcompare_swap (Prim2SF a)).
  destruct (SFcompare (Prim2SF a) (Prim2SF b)) as [[]|]; reflexivity.
Qed.

Lemma eqb_trans a b c : (a =? b) = true -> (b =? c) = true -> (a =? c) = true.
Proof. rewrite !eqb_Eq. apply SFeq_trans. Qed.

Lemma leb_trans a b c : (a <=? b) = true -> (b <=? c) = true -> (a <=? c) = true.
Proof. rewrite !leb_le. apply SFle_trans. Qed.

Lemma leb_refl a : is_nan a = false -> (a <=? a) = true.
Proof.
  rewrite is_nan_false, leb_le. intros H.
  destruct (SFcompare_refl (Prim2SF a)); [now right | contradiction].
Qed.

Lemma ltb_leb a b : (a <? b) = true -> (a <=? b) = true.
Proof. rewrite ltb_Lt, leb_le. now left. Qed.

Lemma eqb_leb a b : (a =? b) = true -> (a <=? b) = true.
Proof. rewrite eqb_Eq, leb_le. now right. Qed.

Lemma not_ltb_leb a b :
  is_nan a = false -> is_nan b = false -> (b <? a) = false -> (a <=? b) = true.
Proof.
  rewrite !is_nan_false, leb_le, <- not_true_iff_false, ltb_Lt.
  unfold SFle. rewrite (SFcompare_swap (Prim2SF a)). intros A B.
  destruct (SFcompare (Prim2SF a) (Prim2SF b)) as [[]|] eqn:E; simpl; auto.
  - intros H. now contradiction H.
  - apply SFcompare_None in E. destruct E; contradiction.
Qed.

Lemma leb_ltb_or_eqb a b : (a <=? b) = true -> (a <? b) = true \/ (a =? b) = true.
Proof. rewrite leb_le, ltb_Lt, eqb_Eq. auto. Qed.

Lemma leb_infinity a : (infinity <=? a) = true -> (a =? infinity) = true.
Proof.
  rewrite leb_le, eqb_Eq. change (Prim2SF infinity) with (S754_infinity false).
  unfold SFle. destruct (Prim2SF a) as [[]|[]| |[] ma ea]; simpl;
    intros [H|H]; try discriminate; reflexivity.
Qed.

Lemma eqb_not_nan a b : (a =? b) = true -> is_nan a = false /\ is_nan b = false.
Proof.
  rewrite !is_nan_false, eqb_Eq. intros H. split; intros E; rewrite E in H.
  - discriminate.
  - destruct (Prim2SF a); discriminate.
Qed.

Lemma eqb_ltb_trans a b c : (a =? b) = true -> (b <? c) = true -> (a <? c) = true.
Proof.
  rewrite eqb_Eq, !ltb_Lt.
  destruct (Prim2SF a) as [[]|[]| |[] ma ea], (Prim2SF b) as [[]|[]| |[] mb eb],
           (Prim2SF c) as [[]|[]| |[] mc ec];
    simpl; try congruence;
    compare_cases; simpl; try congruence; try lia.
Qed.

Lemma min2_cases a b :
  is_nan a = false -> is_nan b = false ->
  (Number.min2 a b = a \/ Number.min2 a b = b)
  /\ (Number.min2 a b <=? a) = true /\ (Number.min2 a b <=? b) = true.
Proof.
  intros A B. unfold Number.min2. rewrite A, B. simpl.
  destruct (b <? a) eqn:L.
  - repeat split; auto using ltb_leb, leb_refl.
  - destruct ((a =? b) && PrimFloat.Leibniz.eqb b neg_zero) eqn:Z.
    + apply andb_true_iff in Z. destruct Z as [Z _].
      repeat split; auto using leb_refl. apply eqb_leb. now rewrite eqb_sym.
    + repeat split; auto using leb_refl, not_ltb_leb.
Qed.

Lemma fold_min2 (l : list float) :
  forall acc,
    is_nan acc = false ->
    Forall (fun v => is_nan v = false) l ->
    let m := fold_left Number.min2 l acc in
    is_nan m = false
    /\ (m <=? acc) = true
    /\ Forall (fun v => (m <=? v) = true) l
    /\ (m = acc \/ In m l).
Proof.
  induction l as [|v l IH]; intros acc A F; simpl.
  - repeat split; auto using leb_refl.
  - inversion F as [|? ? V F']; subst.
    destruct (min2_cases acc v A V) as (C & L1 & L2).
    assert (is_nan (Number.min2 acc v) = false) as N by (destruct C as [-> | ->]; auto).
    destruct (IH _ N F') as (Nm & Lm & Fm & Im).
    repeat split; auto.
    + eapply leb_trans; eauto.
    + constructor; [eapply leb_trans; eauto|exact Fm].
    + destruct Im as [Im|Im]; [|right; now right].
      rewrite Im. destruct C as [-> | ->]; [now left|right; now left].
Qed.

Lemma Math_min_least (l : list float) :
  Forall (fun v => is_nan v = false) l ->
  l <> [] ->
  (forall v, In v l -> (Number.Math_min l <=? v) = true)
  /\ exists v, In v l /\ (v =? Number.Math_min l) = true.
Proof.
  intros F NE. unfold Number.Math_min.
  destruct (fold_min2 l infinity eq_refl F) as (Nm & Lm & Fm & Im).
  cbv zeta in *. split.
  - intros v I. rewrite Forall_forall in Fm. auto.
  - destruct Im as [Im|Im].
    + destruct l as [|v l]; [contradiction|]. exists v. split; [now left|].
      rewrite Im. apply leb_infinity. rewrite <- Im.
      inversion Fm; subst; assumption.
    + exists (fold_left Number.min2 l infinity). split; [exact Im|].
      unfold is_nan in Nm. now apply negb_false_iff in Nm.
Qed.
Lemma nan_mul a : nan * a = nan.
Proof.
  apply Prim2SF_inj. rewrite mul_spec.
  change (Prim2SF nan) with S754_nan. reflexivity.
Qed.

Lemma add_nan a : a + nan = nan.
Proof.
  apply Prim2SF_inj. rewrite add_spec.
  change (Prim2SF nan) with S754_nan. now destruct (Prim2SF a).
Qed.
Lemma is_nan_abs a : is_nan (abs a) = is_nan a.
Proof.
  destruct (is_nan a) eqn:E.
  - apply not_false_iff_true. apply not_false_iff_true in E.
    rewrite is_nan_false in *. rewrite abs_spec. intros H. apply E. intros N.
    apply H. destruct (Prim2SF a); try discriminate; contradiction.
  - rewrite is_nan_false in *. rewrite abs_spec.
    destruct (Prim2SF a); try discriminate; contradiction.
Qed.
End NumberOrder.

(** *** Keys *)

Lemma Key_eqb_eq (a b : Key) : Key_eqb a b = true <-> a = b.
Proof.
  unfold Key_eqb. rewrite andb_true_iff, !FloatAxioms.Leibniz.eqb_spec.
  destruct a as [ax ay], b as [bx b_y]; simpl. split.
  - intros [-> ->]. reflexivity.
  - intros H. injection H as -> ->. split; reflexivity.
Qed.

Lemma Key_eqb_refl (a : Key) : Key_eqb a a = true.
Proof. apply Key_eqb_eq. reflexivity. Qed.

Lemma Key_eqb_neq (a b : Key) : Key_eqb a b = false <-> a <> b.
Proof.
  rewrite <- Key_eqb_eq. destruct (Key_eqb a b); split; congruence.
Qed.

Lemma Key_eq_dec (a b : Key) : {a = b} + {a <> b}.
Proof.
  destruct (Key_eqb a b) eqn:E.
  - left. apply Key_eqb_eq, E.
  - right. apply Key_eqb_neq, E.
Qed.

Lemma filter_twice (A : Type) (p q : A -> bool) (l : list A) :
  filter p (filter q l) = filter (fun a => q a && p a) l.
Proof.
  induction l as [|a l IH]; simpl; [reflexivity|].
  destruct (q a); simpl; [destruct (p a)|]; now rewrite IH.
Qed.

Section ObjFacts.
Variable V : Type.
Implicit Types (o : Obj.t V) (k : Key) (v : V).

Lemma get_set_same o k v : Obj.get (Obj.set o k v) k = Some v.
Proof.
  induction o as [|[k' v'] o IH]; simpl.
  - rewrite Key_eqb_refl. reflexivity.
  - destruct (Key_eqb k' k) eqn:E; simpl; rewrite E; auto.
Qed.

Lemma get_set_other o k k' v : k <> k' -> Obj.get (Obj.set o k v) k' = Obj.get o k'.
Proof.
  intros N. induction o as [|[k0 v0] o IH]; simpl.
  - apply Key_eqb_neq in N. rewrite N. reflexivity.
  - destruct (Key_eqb k0 k) eqn:E; simpl.
    + apply Key_eqb_eq in E. subst k0. apply Key_eqb_neq in N. rewrite N. reflexivity.
    + rewrite IH. reflexivity.
Qed.

Lemma get_In o k v : Obj.get o k = Some v -> In (k, v) o.
Proof.
  induction o as [|[k' v'] o IH]; simpl; [discriminate|].
  destruct (Key_eqb k' k) eqn:E.
  - apply Key_eqb_eq in E. intros [= ->]. subst. now left.
  - intros H. right. auto.
Qed.

Lemma get_None_keys o k : Obj.get o k = None <-> ~ In k (Obj.keys o).
Proof.
  induction o as [|[k' v'] o IH]; simpl.
  - tauto.
  - destruct (Key_eqb k' k) eqn:E.
    + apply Key_eqb_eq in E. split; [discriminate | tauto].
    + apply Key_eqb_neq in E. rewrite IH. tauto.
Qed.

Lemma get_Some_keys o k v : Obj.get o k = Some v -> In k (Obj.keys o).
Proof.
  intros H. apply get_In in H. apply (in_map fst) in H. exact H.
Qed.

Lemma unique_keys_NoDup o : unique_keys o = true <-> NoDup (Obj.keys o).
Proof.
  induction o as [|[k v] o IH]; simpl.
  - split; [constructor | reflexivity].
  - rewrite andb_true_iff, negb_true_iff, IH. split.
    + intros [E U]. constructor; [|exact U]. intros I.
      assert (existsb (Key_eqb k) (Obj.keys o) = true) as X; [|congruence].
      apply existsb_exists. exists k. split; [exact I | apply Key_eqb_refl].
    + intros U. inversion U as [|? ? N U']; subst. split; [|exact U'].
      destruct (existsb (Key_eqb k) (Obj.keys o)) eqn:E; [|reflexivity].
      apply existsb_exists in E. destruct E as [k' [I E]].
      apply Key_eqb_eq in E. subst. contradiction.
Qed.

Lemma In_get o k v : NoDup (Obj.keys o) -> In (k, v) o -> Obj.get o k = Some v.
Proof.
  induction o as [|[k' v'] o IH]; simpl; [tauto|].
  intros U [E|I].
  - injection E as -> ->. rewrite Key_eqb_refl. reflexivity.
  - inversion U as [|? ? N U']; subst.
    destruct (Key_eqb k' k) eqn:E.
    + apply Key_eqb_eq in E. subst. exfalso. apply N.
      apply (in_map fst) in I. exact I.
    + auto.
Qed.

Lemma keys_set_present o k v :
  In k (Obj.keys o) -> Obj.keys (Obj.set o k v) = Obj.keys o.
Proof.
  induction o as [|[k' v'] o IH]; simpl; [tauto|].
  intros I. destruct (Key_eqb k' k) eqn:E; simpl.
  - reflexivity.
  - f_equal. apply IH. destruct I as [I|I]; [|exact I].
    apply Key_eqb_neq in E. congruence.
Qed.

Lemma set_absent o k v : ~ In k (Obj.keys o) -> Obj.set o k v = o ++ [(k, v)].
Proof.
  induction o as [|[k' v'] o IH]; simpl; [reflexivity|].
  intros N. destruct (Key_eqb k' k) eqn:E.
  - apply Key_eqb_eq in E. tauto.
  - f_equal. apply IH. tauto.
Qed.

Lemma delete_filter o k :
  NoDup (Obj.keys o) ->
  Obj.delete o k = filter (fun e => negb (Key_eqb (fst e) k)) o.
Proof.
  induction o as [|[k' v'] o IH]; simpl; [reflexivity|].
  intros U. inversion U as [|? ? N U']; subst.
  destruct (Key_eqb k' k) eqn:E; simpl.
  - apply Key_eqb_eq in E. subst k'.
    symmetry. apply forallb_filter_id. apply forallb_forall.
    intros [k1 v1] I. simpl. apply negb_true_iff, Key_eqb_neq.
    intros ->. apply N. apply (in_map fst) in I. exact I.
  - f_equal. auto.
Qed.

Lemma NoDup_keys_filter o (p : Key * V -> bool) :
  NoDup (Obj.keys o) -> NoDup (Obj.keys (filter p o)).
Proof.
  induction o as [|e o IH]; simpl; [constructor|].
  intros U. inversion U as [|? ? N U']; subst.
  destruct (p e); simpl; [constructor|]; auto.
  intros I. apply N. unfold Obj.keys in *.
  apply in_map_iff in I. destruct I as [e' [E I]].
  apply filter_In in I. apply in_map_iff. exists e'. tauto.
Qed.
End ObjFacts.

(** ** getSurroundingBubbles is a filter of the grid *)

Lemma collect_surrounding (coord : Vec2D.t) (l acc : BubbleGrid) :
  NoDup (Obj.keys (acc ++ l)) ->
  fold_left
    (fun (acc : BubbleGrid) (e : Key * Cell) =>
       if is_surrounding coord (key2Coord (fst e))
       then Obj.set acc (fst e) (snd e) else acc) l acc
  = acc ++ filter (fun e => is_surrounding coord (key2Coord (fst e))) l.
Proof.
  revert acc. induction l as [|[k v] l IH]; intros acc U; simpl.
  - now rewrite app_nil_r.
  - assert (NoDup (Obj.keys ((acc ++ [(k, v)]) ++ l))) as U1
        by now rewrite <- app_assoc.
    assert (~ In k (Obj.keys acc)) as N.
    { unfold Obj.keys in U. rewrite map_app in U. simpl in U.
      apply NoDup_remove_2 in U. intros I. apply U, in_or_app. now left. }
    destruct (is_surrounding coord (key2Coord k)) eqn:E.
    + rewrite set_absent by exact N. rewrite IH by exact U1.
      now rewrite <- app_assoc.
    + apply IH. unfold Obj.keys in *. rewrite map_app in *. simpl in U.
      apply NoDup_remove_1 in U. exact U.
Qed.

Lemma drop_unkept (keepOnly : option Color) (l acc : BubbleGrid) :
  NoDup (Obj.keys acc) ->
  fold_left
    (fun (acc : BubbleGrid) (e : Key * Cell) =>
       if is_kept keepOnly (snd e) then acc else Obj.delete acc (fst e)) l acc
  = filter
      (fun e' => negb (existsb (fun e => Key_eqb (fst e) (fst e')
                                         && negb (is_kept keepOnly (snd e))) l))
      acc.
Proof.
  revert acc. induction l as [|[k v] l IH]; intros acc U; simpl.
  - symmetry. apply forallb_filter_id. now apply forallb_forall.
  - destruct (is_kept keepOnly v) eqn:E; simpl.
    + rewrite IH by exact U. apply filter_ext. intros e'.
      now rewrite andb_false_r.
    + assert (NoDup (Obj.keys (Obj.delete acc k))) as U1.
      { rewrite delete_filter by exact U. now apply NoDup_keys_filter. }
      rewrite IH by exact U1. rewrite delete_filter by exact U.
      rewrite filter_twice. apply filter_ext. intros [k' v']. simpl.
      destruct (Key_eq_dec k k') as [->|N].
      * now rewrite !Key_eqb_refl.
      * assert (Key_eqb k k' = false) as -> by now apply Key_eqb_neq.
        assert (Key_eqb k' k = false) as -> by (apply Key_eqb_neq; congruence).
        reflexivity.
Qed.

Lemma getSurroundingBubbles_filter (g : BubbleGrid) (coord : Vec2D.t) (keepOnly : option Color) :
  NoDup (Obj.keys g) ->
  getSurroundingBubbles g coord keepOnly = filter (surrounds coord keepOnly) g.
Proof.
  intros U. unfold getSurroundingBubbles, Obj.entries.
  rewrite collect_surrounding by exact U. simpl.
  set (S := filter (fun e => is_surrounding coord (key2Coord (fst e))) g).
  assert (NoDup (Obj.keys S)) as US by now apply NoDup_keys_filter.
  rewrite drop_unkept by exact US.
  assert (filter (surrounds coord keepOnly) g = filter (fun e => is_kept keepOnly (snd e)) S) as ->.
  { unfold S. rewrite filter_twice. reflexivity. }
  apply filter_ext_in. intros [k v] I. simpl.
  destruct (is_kept keepOnly v) eqn:E.
  - apply negb_true_iff. destruct (existsb _ S) eqn:X; [|reflexivity].
    apply existsb_exists in X. destruct X as [[k1 v1] [I1 X]]. simpl in X.
    apply andb_true_iff in X. destruct X as [X1 X2].
    apply Key_eqb_eq in X1. subst k1.
    apply (In_get _ _ _ _ US) in I. apply (In_get _ _ _ _ US) in I1.
    assert (v1 = v) by congruence. subst. rewrite E in X2. discriminate.
  - apply negb_false_iff. apply existsb_exists. exists (k, v). simpl.
    now rewrite Key_eqb_refl, E.
Qed.

(** ** explode *)

Lemma colored_count_set_None (g : BubbleGrid) (k : Key) (c : Color) :
  Obj.get g k = Some (Some c) ->
  S (colored_count (Obj.set g k None)) = colored_count g.
Proof.
  unfold colored_count, Obj.values.
  induction g as [|[k' v'] g IH]; simpl; [discriminate|].
  destruct (Key_eqb k' k) eqn:E; simpl.
  - intros [= ->]. reflexivity.
  - intros H. destruct (is_colored v'); simpl; rewrite <- (IH H); reflexivity.
Qed.

Lemma colored_count_middle (l1 l2 : BubbleGrid) (k : Key) (c : Color) :
  colored_count (l1 ++ (k, Some c) :: l2) = S (colored_count (l1 ++ (k, None) :: l2)).
Proof.
  unfold colored_count, Obj.values. rewrite !map_app, !filter_app, !length_app.
  simpl. lia.
Qed.

Lemma chain_mono (g1 g : BubbleGrid) (c : Color) (a : Vec2D.t) (b : Key) :
  (forall k, Obj.get g1 k = Some (Some c) -> Obj.get g k = Some (Some c)) ->
  chain g1 c a b -> chain g c a b.
Proof.
  intros M H. induction H as [b S H|m b _ IH S H].
  - apply chain_one; auto.
  - eapply chain_more; eauto.
Qed.

Lemma chain_cons (g : BubbleGrid) (c : Color) (a : Vec2D.t) (m b : Key) :
  is_surrounding a (key2Coord m) = true ->
  Obj.get g m = Some (Some c) ->
  chain g c (key2Coord m) b -> chain g c a b.
Proof.
  intros S H C. induction C as [b S' H'|m' b _ IH S' H'].
  - eapply chain_more; [apply chain_one| |]; eauto.
  - eapply chain_more; eauto.
Qed.

Lemma explosion_nothing (targets reached : Key -> Prop) (s : State) :
  (forall k, targets k -> Obj.get (bubbles s) k <> Some (Some (bulletColor s))) ->
  explosion targets reached s s.
Proof.
  intros T. unfold explosion, same_round.
  refine (conj _ (conj _ (conj _ (conj _ (conj _ (conj _ _)))))); auto.
  - tauto.
  - intros k Tk H. now apply T in Tk.
  - intros m k H H'. congruence.
Qed.

Lemma explode_each_sound (rec : State -> Vec2D.t -> option State) :
  (forall s1 x s2, NoDup (Obj.keys (bubbles s1)) ->
                   rec s1 x = Some s2 -> explodes_to x s1 s2) ->
  forall ks s s',
    NoDup (Obj.keys (bubbles s)) ->
    (forall k, In k ks -> Obj.get (bubbles s) k = Some (Some (bulletColor s))
                          \/ Obj.get (bubbles s) k = Some None) ->
    explode_each rec ks s = Some s' ->
    explodes_each_to ks s s'.
Proof.
  intros Hrec. induction ks as [|k ks IH]; intros s s' U P E; simpl in E.
  - injection E as <-. apply explosion_nothing. intros k I. destruct I.
  - destruct (P k (or_introl eq_refl)) as [Hk|Hk]; rewrite Hk in E.
    + (* a bubble of the bullet's colour: cleared, then explored *)
      match type of E with
      | context [rec ?a _] => remember a as s3 eqn:E3
      end.
      destruct (rec s3 (key2Coord k)) as [s4|] eqn:R; [|discriminate].
      assert (bubbles s3 = Obj.set (bubbles s) k None) as G3 by now subst s3.
      assert (bulletColor s3 = bulletColor s) as C3 by now subst s3.
      assert (score s3 = score s + 10)%Z as S3 by now subst s3.
      assert (same_round s s3) as F3 by (subst s3; unfold same_round; simpl; tauto).
      assert (Obj.keys (bubbles s3) = Obj.keys (bubbles s)) as K3.
      { rewrite G3. apply keys_set_present. eapply get_Some_keys; eauto. }
      assert (Obj.get (bubbles s3) k = Some None) as A3
          by (rewrite G3; apply get_set_same).
      assert (forall k', k' <> k -> Obj.get (bubbles s3) k' = Obj.get (bubbles s) k') as B3.
      { intros k' N. rewrite G3. apply get_set_other. congruence. }
      assert (S (colored_count (bubbles s3)) = colored_count (bubbles s)) as N3.
      { rewrite G3. eapply colored_count_set_None; eauto. }
      clear E3 G3.
      apply Hrec in R; [|now rewrite K3].
      destruct R as (F4 & K4 & M4 & T4 & L4 & N4 & S4). rewrite C3 in *.
      assert (bulletColor s4 = bulletColor s) as C4.
      { destruct F4 as (_ & _ & -> & _). exact C3. }
      apply IH in E; [|now rewrite K4, K3|].
      2:{ intros k' I. rewrite C4. destruct (M4 k') as [->|(_ & -> & _)]; [|now right].
          destruct (Key_eq_dec k' k) as [->|N]; [now right|].
          rewrite (B3 _ N). apply P. now right. }
      destruct E as (F5 & K5 & M5 & T5 & L5 & N5 & S5). rewrite C4 in *.
      (* facts on a cell through the three steps *)
      assert (forall k', Obj.get (bubbles s4) k' = Some (Some (bulletColor s)) ->
                         Obj.get (bubbles s) k' = Some (Some (bulletColor s))) as Up4.
      { intros k' H. destruct (M4 k') as [X|(_ & X & _)]; [|congruence].
        destruct (Key_eq_dec k' k) as [->|N]; [congruence|].
        rewrite <- (B3 _ N). congruence. }
      assert (forall k', Obj.get (bubbles s3) k' = Some (Some (bulletColor s)) ->
                         Obj.get (bubbles s) k' = Some (Some (bulletColor s))) as Up3.
      { intros k' H. destruct (Key_eq_dec k' k) as [->|N]; [congruence|].
        rewrite <- (B3 _ N). exact H. }
      assert (forall k', Obj.get (bubbles s4) k' = Some None ->
                         Obj.get (bubbles s') k' = Some None) as Dn5.
      { intros k' H. destruct (M5 k') as [X|(_ & X & _)]; congruence. }
      assert (forall k', Obj.get (bubbles s3) k' = Some None ->
                         Obj.get (bubbles s') k' = Some None) as Dn4.
      { intros k' H. apply Dn5. destruct (M4 k') as [X|(_ & X & _)]; congruence. }
      unfold explodes_each_to, explosion.
      refine (conj _ (conj _ (conj _ (conj _ (conj _ (conj _ _)))))).
      * unfold same_round in *. intuition congruence.
      * congruence.
      * intros k'. destruct (Key_eq_dec k' k) as [->|N].
        { right. repeat split; auto. left. now left. }
        destruct (M5 k') as [X5|(X5 & Y5 & Z5)].
        { destruct (M4 k') as [X4|(X4 & Y4 & Z4)].
          - left. rewrite X5, X4. now apply B3.
          - right. repeat split; [now apply Up3 | congruence |].
            right. exists k. split; [now left|].
            eapply chain_mono; [|exact Z4]. exact Up3. }
        { right. repeat split; [now apply Up4 | exact Y5 |].
          destruct Z5 as [I|(k0 & I & Z)]; [left; now right|].
          right. exists k0. split; [now right|].
          eapply chain_mono; [|exact Z]. exact Up4. }
      * intros k' [<-|I] H; [now apply Dn4|].
        destruct (M4 k') as [X4|(X4 & Y4 & Z4)]; [|now apply Dn5].
        destruct (Key_eq_dec k' k) as [->|N]; [now apply Dn4|].
        apply T5; [exact I|]. rewrite X4, (B3 _ N). exact H.
      * intros m k' Hm Hm' Sm Hk'.
        destruct (Key_eq_dec k' k) as [->|Nk]; [now apply Dn4|].
        assert (Obj.get (bubbles s3) k' = Some (Some (bulletColor s))) as Hk3
            by now rewrite (B3 _ Nk).
        destruct (Key_eq_dec m k) as [->|Nm]; [apply Dn5; now apply T4|].
        assert (Obj.get (bubbles s3) m = Some (Some (bulletColor s))) as Hm3
            by now rewrite (B3 _ Nm).
        destruct (M4 m) as [X4|(X4 & Y4 & Z4)].
        { destruct (M4 k') as [V4|(V4 & W4 & _)]; [|now apply Dn5].
          apply (L5 m k'); congruence. }
        { apply Dn5. now apply (L4 m k'). }
      * lia.
      * lia.
    + (* already Empty: skipped *)
      apply IH in E; [|exact U|intros k' I; apply P; now right].
      destruct E as (F5 & K5 & M5 & T5 & L5 & N5 & S5).
      unfold explodes_each_to, explosion.
      refine (conj _ (conj _ (conj _ (conj _ (conj _ (conj _ _)))))); auto.
      * intros k'. destruct (M5 k') as [X5|(X5 & Y5 & [I|(k0 & I & Z)])];
          [now left| |]; right; repeat split; auto.
        { left. now right. }
        { right. exists k0. split; [now right|exact Z]. }
      * intros k' [<-|I] H; [congruence|now apply T5].
Qed.

Lemma Color_eqb_eq (a b : Color) : Color_eqb a b = true <-> a = b.
Proof. destruct a, b; simpl; split; congruence. Qed.

Lemma Cell_eqb_eq (a b : Cell) : Cell_eqb a b = true <-> a = b.
Proof.
  destruct a as [a|], b as [b|]; simpl; try (split; congruence).
  rewrite Color_eqb_eq. split; congruence.
Qed.

Lemma is_kept_eq (keepOnly : option Color) (color : Cell) :
  is_kept keepOnly color = true <-> color = keepOnly.
Proof. destruct keepOnly; simpl; apply Cell_eqb_eq. Qed.

Lemma keys_surrounding (g : BubbleGrid) (coord : Vec2D.t) (keepOnly : option Color) (k : Key) :
  NoDup (Obj.keys g) ->
  In k (Obj.keys (getSurroundingBubbles g coord keepOnly))
  <-> is_surrounding coord (key2Coord k) = true /\ Obj.get g k = Some keepOnly.
Proof.
  intros U. rewrite getSurroundingBubbles_filter by exact U.
  unfold Obj.keys. rewrite in_map_iff. split.
  - intros [[k' v] [<- I]]. apply filter_In in I. destruct I as [I S].
    unfold surrounds in S. apply andb_true_iff in S. destruct S as [S K].
    simpl in *. apply is_kept_eq in K. subst v. split; [exact S|].
    now apply In_get.
  - intros [S H]. exists (k, keepOnly). split; [reflexivity|].
    apply filter_In. split; [now apply get_In|].
    unfold surrounds. simpl. rewrite S. now apply is_kept_eq.
Qed.

Lemma explode_sound (fuel : nat) :
  forall s coord s',
    NoDup (Obj.keys (bubbles s)) ->
    explode fuel s coord = Some s' -> explodes_to coord s s'.
Proof.
  induction fuel as [|fuel IH]; intros s coord s' U E; simpl in E; [discriminate|].
  assert (forall k, In k (Obj.keys (getSurroundingBubbles (bubbles s) coord (Some (bulletColor s))))
                    <-> is_surrounding coord (key2Coord k) = true
                        /\ Obj.get (bubbles s) k = Some (Some (bulletColor s))) as K
      by (intros k; now apply keys_surrounding).
  apply explode_each_sound in E; [|exact IH|exact U|].
  2:{ intros k I. left. now apply K. }
  destruct E as (F & Ks & M & T & L & N & S).
  unfold explodes_to, explosion.
  refine (conj F (conj Ks (conj _ (conj _ (conj L (conj N S)))))).
  - intros k. destruct (M k) as [X|(X & Y & Z)]; [now left|right].
    repeat split; auto. destruct Z as [I|(k0 & I & Z)].
    + apply chain_one; now apply K.
    + apply K in I. destruct I as [I1 I2]. eapply chain_cons; eauto.
  - intros k Sk H. apply T; [|exact H]. now apply K.
Qed.

Lemma explode_each_total (rec : State -> Vec2D.t -> option State) (n : nat) :
  (forall s1 x, NoDup (Obj.keys (bubbles s1)) -> colored_count (bubbles s1) < n ->
                exists s2, rec s1 x = Some s2) ->
  (forall s1 x s2, NoDup (Obj.keys (bubbles s1)) ->
                   rec s1 x = Some s2 -> explodes_to x s1 s2) ->
  forall ks s,
    NoDup (Obj.keys (bubbles s)) ->
    (forall k, In k ks -> Obj.get (bubbles s) k = Some (Some (bulletColor s))
                          \/ Obj.get (bubbles s) k = Some None) ->
    colored_count (bubbles s) <= n ->
    exists s', explode_each rec ks s = Some s'.
Proof.
  intros Htot Hrec. induction ks as [|k ks IH]; intros s U P N; simpl.
  - now exists s.
  - destruct (P k (or_introl eq_refl)) as [Hk|Hk]; rewrite Hk.
    + match goal with
      | |- context [rec ?a _] => remember a as s3 eqn:E3
      end.
      assert (bubbles s3 = Obj.set (bubbles s) k None) as G3 by now subst s3.
      assert (bulletColor s3 = bulletColor s) as C3 by now subst s3.
      assert (Obj.keys (bubbles s3) = Obj.keys (bubbles s)) as K3.
      { rewrite G3. apply keys_set_present. eapply get_Some_keys; eauto. }
      assert (S (colored_count (bubbles s3)) = colored_count (bubbles s)) as N3.
      { rewrite G3. eapply colored_count_set_None; eauto. }
      assert (forall k', Obj.get (bubbles s3) k' = Some (Some (bulletColor s))
                         \/ Obj.get (bubbles s3) k' = Some None
                         \/ Obj.get (bubbles s3) k' = Obj.get (bubbles s) k') as B3.
      { intros k'. rewrite G3. destruct (Key_eq_dec k k') as [->|Nk].
        - right. left. apply get_set_same.
        - right. right. now apply get_set_other. }
      clear E3 G3.
      destruct (Htot s3 (key2Coord k)) as [s4 R]; [now rewrite K3|lia|].
      rewrite R. apply Hrec in R; [|now rewrite K3].
      destruct R as (F4 & K4 & M4 & _ & _ & N4 & _). rewrite C3 in *.
      assert (bulletColor s4 = bulletColor s) as C4.
      { destruct F4 as (_ & _ & -> & _). exact C3. }
      apply IH; [now rewrite K4, K3| |lia].
      intros k' I. rewrite C4.
      destruct (M4 k') as [->|(_ & -> & _)]; [|now right].
      destruct (B3 k') as [X|[X| ->]]; auto. apply P. now right.
    + apply IH; auto. intros k' I. apply P. now right.
Qed.

Lemma explode_total (fuel : nat) :
  forall s coord,
    NoDup (Obj.keys (bubbles s)) ->
    colored_count (bubbles s) < fuel ->
    exists s', explode fuel s coord = Some s'.
Proof.
  induction fuel as [|fuel IH]; intros s coord U N; [inversion N|]. simpl.
  apply explode_each_total with (n := fuel).
  - exact IH.
  - intros s1 x s2 U1. apply explode_sound, U1.
  - exact U.
  - intros k I. left. apply keys_surrounding in I; [apply I|exact U].
  - apply Nat.lt_succ_r, N.
Qed.

(** ** landBullet: which cell is chosen *)

Lemma find_ext_in (A : Type) (p q : A -> bool) (l : list A) :
  (forall a, In a l -> p a = q a) -> find p l = find q l.
Proof.
  induction l as [|a l IH]; intros H; simpl; [reflexivity|].
  rewrite <- (H a) by now left. destruct (p a); [reflexivity|].
  apply IH. intros b I. apply H. now right.
Qed.

Lemma find_filter (A : Type) (p q : A -> bool) (l : list A) :
  find p (filter q l) = find (fun a => q a && p a) l.
Proof.
  induction l as [|a l IH]; simpl; [reflexivity|].
  destruct (q a); simpl; [destruct (p a)|]; auto.
Qed.

Lemma find_map (A B : Type) (f : A -> B) (p : B -> bool) (l : list A) :
  find p (map f l) = option_map f (find (fun a => p (f a)) l).
Proof.
  induction l as [|a l IH]; simpl; [reflexivity|].
  destruct (p (f a)); auto.
Qed.

Lemma find_split (A : Type) (p : A -> bool) (l : list A) (a : A) :
  find p l = Some a ->
  exists l1 l2, l = l1 ++ a :: l2 /\ p a = true /\ forall b, In b l1 -> p b = false.
Proof.
  induction l as [|b l IH]; simpl; [discriminate|].
  destruct (p b) eqn:E.
  - intros [= ->]. exists [], l. repeat split; auto. intros b [].
  - intros H. destruct (IH H) as (l1 & l2 & -> & Pa & N).
    exists (b :: l1), l2. repeat split; auto.
    intros b' [<-|I]; auto.
Qed.

Lemma collect_set (A B : Type) (f : Key * A -> B) (l : Obj.t A) (acc : Obj.t B) :
  NoDup (Obj.keys acc ++ Obj.keys l) ->
  fold_left (fun (acc : Obj.t B) (e : Key * A) => Obj.set acc (fst e) (f e)) l acc
  = acc ++ map (fun e => (fst e, f e)) l.
Proof.
  revert acc. induction l as [|[k v] l IH]; intros acc U; simpl.
  - now rewrite app_nil_r.
  - assert (~ In k (Obj.keys acc)) as N.
    { simpl in U. apply NoDup_remove_2 in U. intros I. apply U, in_or_app. now left. }
    rewrite set_absent by exact N. rewrite IH.
    + now rewrite <- app_assoc.
    + unfold Obj.keys in *. rewrite map_app, <- app_assoc. exact U.
Qed.

Lemma landing_distances_map (s : State) :
  NoDup (Obj.keys (bubbles s)) ->
  landing_distances s
  = map (fun e => (fst e, landing_distance s (fst e)))
        (filter (surrounds (wantedLandingPosition s) None) (bubbles s)).
Proof.
  intros U. unfold landing_distances, Obj.entries.
  rewrite getSurroundingBubbles_filter by exact U.
  apply (collect_set _ _ (fun e => landing_distance s (fst e)) _ []).
  simpl. now apply NoDup_keys_filter.
Qed.

Lemma landing_candidates_filter (s : State) :
  NoDup (Obj.keys (bubbles s)) ->
  landing_candidates s
  = map fst (filter (surrounds (wantedLandingPosition s) None) (bubbles s)).
Proof.
  intros U. unfold landing_candidates.
  now rewrite getSurroundingBubbles_filter by exact U.
Qed.

(** The chosen key is the first entry of the grid, in enumeration order, that
    is an Empty neighbour of the wanted position at the least distance. *)
Lemma finalPosition_find (s : State) :
  NoDup (Obj.keys (bubbles s)) ->
  finalPosition s
  = option_map fst
      (find (fun e => surrounds (wantedLandingPosition s) None e
                      && (landing_distance s (fst e)
                          =? Number.Math_min (map (landing_distance s) (landing_candidates s))))
            (bubbles s)).
Proof.
  intros U. unfold finalPosition.
  rewrite landing_candidates_filter, landing_distances_map by exact U.
  set (C := filter (surrounds (wantedLandingPosition s) None) (bubbles s)).
  assert (NoDup (Obj.keys C)) as UC by now apply NoDup_keys_filter.
  set (D := map (fun e : Key * Cell => (fst e, landing_distance s (fst e))) C).
  assert (Obj.keys D = map fst C) as KD.
  { unfold D, Obj.keys. rewrite map_map. reflexivity. }
  assert (Obj.values D = map (landing_distance s) (map fst C)) as VD.
  { unfold D, Obj.values. rewrite !map_map. reflexivity. }
  rewrite KD, VD.
  rewrite (find_ext_in _ _
             (fun d => landing_distance s d
                       =? Number.Math_min (map (landing_distance s) (map fst C)))).
  - rewrite find_map. unfold C at 2. rewrite find_filter. reflexivity.
  - intros k I. rewrite (In_get _ D k (landing_distance s k)); [reflexivity| |].
    + now rewrite KD.
    + apply in_map_iff in I. destruct I as [e [<- I]].
      unfold D. apply in_map_iff. now exists e.
Qed.

Lemma set_middle (V : Type) (l1 l2 : Obj.t V) (k : Key) (v v' : V) :
  ~ In k (Obj.keys l1) ->
  Obj.set (l1 ++ (k, v) :: l2) k v' = l1 ++ (k, v') :: l2.
Proof.
  induction l1 as [|[k1 v1] l1 IH]; simpl; intros N.
  - now rewrite Key_eqb_refl.
  - destruct (Key_eqb k1 k) eqn:E.
    + apply Key_eqb_eq in E. tauto.
    + f_equal. apply IH. tauto.
Qed.

Lemma landing_candidates_spec (s : State) (k : Key) :
  NoDup (Obj.keys (bubbles s)) ->
  In k (landing_candidates s)
  <-> is_surrounding (wantedLandingPosition s) (key2Coord k) = true
      /\ Obj.get (bubbles s) k = Some None.
Proof. intros U. now apply keys_surrounding. Qed.

Lemma finalPosition_in_grid (s : State) (fp : Key) :
  NoDup (Obj.keys (bubbles s)) ->
  finalPosition s = Some fp ->
  exists l1 l2,
    bubbles s = l1 ++ (fp, None) :: l2
    /\ is_surrounding (wantedLandingPosition s) (key2Coord fp) = true
    /\ (landing_distance s fp
        =? Number.Math_min (map (landing_distance s) (landing_candidates s))) = true
    /\ forall k, In k (Obj.keys l1) -> In k (landing_candidates s) ->
                 (landing_distance s k
                  =? Number.Math_min (map (landing_distance s) (landing_candidates s))) = false.
Proof.
  intros U E. rewrite finalPosition_find in E by exact U.
  destruct (find _ (bubbles s)) as [[k v]|] eqn:F; [|discriminate].
  simpl in E. injection E as ->.
  apply find_split in F. destruct F as (l1 & l2 & G & P & N).
  apply andb_true_iff in P. destruct P as [P D].
  unfold surrounds in P. apply andb_true_iff in P. destruct P as [S K].
  cbn [fst snd] in *. apply is_kept_eq in K. subst v.
  exists l1, l2. repeat split; auto.
  intros k I C. apply (landing_candidates_spec _ _ U) in C. destruct C as [Sk Hk].
  apply in_map_iff in I. destruct I as [[k' v] [<- I]]. cbn [fst snd] in *.
  assert (v = None) as ->.
  { apply get_In in Hk.
    assert (In (k', v) (bubbles s)) as I' by (rewrite G; apply in_or_app; now left).
    apply (In_get _ _ _ _ U) in I'. apply (In_get _ _ _ _ U) in Hk. congruence. }
  specialize (N _ I). unfold surrounds in N. cbn [fst snd] in N.
  rewrite Sk in N. exact N.
Qed.

Lemma NoDup_keys_middle (V : Type) (l1 l2 : Obj.t V) (k : Key) (v : V) :
  NoDup (Obj.keys (l1 ++ (k, v) :: l2)) -> ~ In k (Obj.keys l1).
Proof.
  unfold Obj.keys. rewrite map_app. simpl. intros U I.
  apply NoDup_remove_2 in U. apply U, in_or_app. now left.
Qed.

Lemma placeBullet_in_grid (s s2 : State) (fp : Key) :
  NoDup (Obj.keys (bubbles s)) ->
  placeBullet s = Some (fp, s2) ->
  exists l1 l2,
    bubbles s = l1 ++ (fp, None) :: l2
    /\ bubbles s2 = l1 ++ (fp, Some (bulletColor s)) :: l2
    /\ s2 = set_bubbles (bubbles s2) (set_bullet (key2Coord fp) s).
Proof.
  intros U E. unfold placeBullet in E.
  destruct (finalPosition s) as [k|] eqn:F; [|discriminate].
  injection E as -> <-.
  destruct (finalPosition_in_grid _ _ U F) as (l1 & l2 & G & _).
  exists l1, l2. simpl. rewrite G at 2.
  rewrite set_middle; [auto|].
  rewrite G in U. eapply NoDup_keys_middle; eauto.
Qed.

Lemma finalPosition_exists (s : State) :
  NoDup (Obj.keys (bubbles s)) ->
  landing_candidates s <> [] ->
  Forall (fun v => is_nan v = false) (map (landing_distance s) (landing_candidates s)) ->
  exists fp, finalPosition s = Some fp.
Proof.
  intros U NE F. rewrite finalPosition_find by exact U.
  destruct (Math_min_least _ F) as [_ (v & I & E)].
  { destruct (landing_candidates s); [contradiction|discriminate]. }
  apply in_map_iff in I. destruct I as [k [<- I]].
  destruct (find _ (bubbles s)) as [[fp c]|] eqn:X; [now exists fp|].
  exfalso. apply (landing_candidates_spec _ _ U) in I. destruct I as [S H].
  apply get_In in H. apply (find_none _ _ X) in H.
  unfold surrounds in H. cbn [fst snd] in H. rewrite S, E in H. discriminate.
Qed.

(** C2 (landBullet, lines 133-158; [Bullet.land]).  When the wanted landing
    position has an Empty neighbour, the landing step chooses a cell of the
    grid that is Empty and at one of the six offsets from the wanted position,
    no candidate is nearer, every candidate enumerated before it is strictly
    farther, and the step writes the bullet's colour into that cell and into
    no other.  The candidates are exactly the Empty neighbours.  (Distances
    are numbers: the statement asks that none be [NaN].) *)
Theorem landing_takes_nearest_empty_neighbour (s : State) :
  unique_keys (bubbles s) = true ->
  landing_candidates s <> [] ->
  forallb (fun k => negb (is_nan (landing_distance s k))) (landing_candidates s) = true ->
  (forall k, In k (landing_candidates s)
             <-> is_surrounding (wantedLandingPosition s) (key2Coord k) = true
                 /\ Obj.get (bubbles s) k = Some None)
  /\ exists fp s2 l1 l2,
      placeBullet s = Some (fp, s2)
      /\ In fp (landing_candidates s)
      /\ bubbles s = l1 ++ (fp, None) :: l2
      /\ (forall k, In k (landing_candidates s) ->
                    (landing_distance s fp <=? landing_distance s k) = true)
      /\ (forall k, In k (Obj.keys l1) -> In k (landing_candidates s) ->
                    (landing_distance s fp <? landing_distance s k) = true)
      /\ bubbles s2 = l1 ++ (fp, Some (bulletColor s)) :: l2
      /\ bullet s2 = key2Coord fp.
Proof.
  intros U NE F. apply unique_keys_NoDup in U.
  split; [intros k; now apply landing_candidates_spec|].
  assert (Forall (fun v => is_nan v = false)
                 (map (landing_distance s) (landing_candidates s))) as F'.
  { apply Forall_forall. intros v I. apply in_map_iff in I.
    destruct I as [k [<- I]]. rewrite forallb_forall in F.
    apply F in I. now apply negb_true_iff in I. }
  destruct (finalPosition_exists _ U NE F') as [fp E].
  destruct (finalPosition_in_grid _ _ U E) as (l1 & l2 & G & S & D & N).
  destruct (Math_min_least _ F') as [L _].
  { destruct (landing_candidates s); [contradiction|discriminate]. }
  assert (forall k, In k (landing_candidates s) ->
                    (Number.Math_min (map (landing_distance s) (landing_candidates s))
                     <=? landing_distance s k) = true) as L'.
  { intros k I. apply L. now apply in_map. }
  assert (~ In fp (Obj.keys l1)) as X.
  { rewrite G in U. eapply NoDup_keys_middle; eauto. }
  exists fp, (set_bubbles (Obj.set (bubbles s) fp (Some (bulletColor s)))
                          (set_bullet (key2Coord fp) s)), l1, l2.
  unfold placeBullet. rewrite E. cbn [bubbles bulletColor bullet set_bubbles set_bullet].
  repeat split; auto; [| | |rewrite G; now apply set_middle].
  - apply landing_candidates_spec; [exact U|]. split; [exact S|].
    apply In_get; [exact U|]. rewrite G. apply in_or_app. right. now left.
  - intros k I. eapply leb_trans; [apply eqb_leb; exact D|now apply L'].
  - intros k I C. eapply eqb_ltb_trans; [exact D|].
    destruct (leb_ltb_or_eqb _ _ (L' _ C)) as [Y|Y]; [exact Y|].
    rewrite eqb_sym, (N _ I C) in Y. discriminate.
Qed.

(** ** getSurroundingBubbles: at most six cells, at the six offsets *)

Lemma is_surrounding_six (coord b : Vec2D.t) :
  is_surrounding coord b = existsb (same_position b) (six_positions coord).
Proof.
  unfold is_surrounding, six_positions, same_position. simpl.
  now rewrite orb_false_r, !orb_assoc.
Qed.

Lemma same_position_join (a b p : Vec2D.t) :
  same_position a p = true -> same_position b p = true -> same_position a b = true.
Proof.
  unfold same_position. rewrite !andb_true_iff. intros [X1 Y1] [X2 Y2].
  rewrite (eqb_sym (Vec2D.x b)) in X2. rewrite (eqb_sym (Vec2D.y b)) in Y2.
  split; eapply eqb_trans; eauto.
Qed.

Lemma distinct_positions_filter (p : Key -> bool) (ks : list Key) :
  distinct_positions ks = true -> distinct_positions (filter p ks) = true.
Proof.
  induction ks as [|k ks IH]; simpl; [reflexivity|].
  rewrite andb_true_iff, negb_true_iff. intros [E D].
  destruct (p k); simpl; [|auto].
  rewrite (IH D), andb_true_r, negb_true_iff.
  destruct (existsb _ (filter p ks)) eqn:X; [|reflexivity].
  apply existsb_exists in X. destruct X as [k' [I S]].
  apply filter_In in I. destruct I as [I _].
  assert (existsb (fun k' => same_position (key2Coord k) (key2Coord k')) ks = true) as Y
      by (apply existsb_exists; eauto).
  congruence.
Qed.

Lemma distinct_positions_entries (V : Type) (p : Key * V -> bool) (o : Obj.t V) :
  distinct_positions (Obj.keys o) = true ->
  distinct_positions (Obj.keys (filter p o)) = true.
Proof.
  induction o as [|[k v] o IH]; simpl; [reflexivity|].
  rewrite andb_true_iff, negb_true_iff. intros [E D].
  destruct (p (k, v)); simpl; [|auto].
  rewrite (IH D), andb_true_r, negb_true_iff.
  destruct (existsb _ (Obj.keys (filter p o))) eqn:X; [|reflexivity].
  apply existsb_exists in X. destruct X as [k' [I S]].
  assert (In k' (Obj.keys o)) as I'.
  { unfold Obj.keys in *. apply in_map_iff in I. destruct I as [e [<- I]].
    apply filter_In in I. apply in_map. tauto. }
  assert (existsb (fun k' => same_position (key2Coord k) (key2Coord k')) (Obj.keys o) = true) as Y
      by (apply existsb_exists; eauto).
  congruence.
Qed.

(** Cells at pairwise distinct positions, each at one of the positions [ps],
    are no more than the positions. *)
Lemma positions_bound (ps : list Vec2D.t) :
  forall ks,
    distinct_positions ks = true ->
    (forall k, In k ks -> existsb (same_position (key2Coord k)) ps = true) ->
    List.length ks <= List.length ps.
Proof.
  induction ps as [|p ps IH]; intros ks D H.
  - destruct ks as [|k ks]; [reflexivity|].
    specialize (H k (or_introl eq_refl)). discriminate.
  - pose (at_p := fun k : Key => same_position (key2Coord k) p).
    assert (List.length (filter at_p ks) <= 1) as One.
    { clear H. induction ks as [|k ks IHk]; simpl; [lia|].
      simpl in D. apply andb_true_iff in D. destruct D as [E D].
      destruct (at_p k) eqn:A; [|auto]. simpl.
      assert (filter at_p ks = []) as ->; [|simpl; lia].
      destruct (filter at_p ks) as [|k' r] eqn:F; [reflexivity|].
      assert (In k' (filter at_p ks)) as I by (rewrite F; now left).
      apply filter_In in I. destruct I as [I A'].
      apply negb_true_iff in E.
      assert (existsb (fun k' => same_position (key2Coord k) (key2Coord k')) ks = true) as Y.
      { apply existsb_exists. exists k'. split; [exact I|].
        eapply same_position_join; eauto. }
      congruence. }
    assert (List.length (filter (fun k => negb (at_p k)) ks) <= List.length ps) as Rest.
    { apply IH; [now apply distinct_positions_filter|].
      intros k I. apply filter_In in I. destruct I as [I A].
      specialize (H k I). simpl in H. apply negb_true_iff in A.
      unfold at_p in A. rewrite A in H. exact H. }
    pose proof (filter_length at_p ks). simpl. lia.
Qed.

(** C6 (getSurroundingBubbles, lines 165-209).  On a grid whose keys parse to
    pairwise distinct positions, the enumeration returns at most six entries;
    each is an entry of the grid, with its state, whose position equals under
    [===] one of the six offsets from [coord], and it passed the filter. *)
Theorem surrounding_at_most_six (g : BubbleGrid) (coord : Vec2D.t) (keepOnly : option Color) :
  unique_keys g = true ->
  distinct_positions (Obj.keys g) = true ->
  List.length (getSurroundingBubbles g coord keepOnly) <= 6
  /\ forall k v,
      In (k, v) (getSurroundingBubbles g coord keepOnly) ->
      Obj.get g k = Some v
      /\ v = keepOnly
      /\ exists p, In p (six_positions coord) /\ same_position (key2Coord k) p = true.
Proof.
  intros U D. apply unique_keys_NoDup in U.
  rewrite getSurroundingBubbles_filter by exact U. split.
  - rewrite <- (length_map fst).
    apply (positions_bound (six_positions coord)).
    + now apply distinct_positions_entries.
    + intros k I. apply in_map_iff in I. destruct I as [[k' v] [<- I]].
      apply filter_In in I. destruct I as [_ S].
      unfold surrounds in S. apply andb_true_iff in S. destruct S as [S _].
      now rewrite <- is_surrounding_six.
  - intros k v I. apply filter_In in I. destruct I as [I S].
    unfold surrounds in S. apply andb_true_iff in S. destruct S as [S K].
    cbn [fst snd] in *. apply is_kept_eq in K.
    rewrite is_surrounding_six in S. apply existsb_exists in S.
    repeat split; auto. now apply In_get.
Qed.

(** ** bulletIsAboutToCollide and the order of the tests in the flight *)

Lemma first_collision_find (b : Vec2D.t) (es : list (Key * Cell)) :
  first_collision b es = option_map (fun e => key2Coord (fst e)) (find (is_hit b) es).
Proof.
  induction es as [|[k [c|]] es IH]; simpl; auto.
  unfold is_hit at 1. simpl.
  destruct (length (Vec2D.sub (key2Coord k) b) <? 1.12); auto.
Qed.

Lemma flight_unfold (fuel : nat) (directionVector : Vec2D.t) (s : State) :
  flight (S fuel) directionVector s
  = if fst (bulletIsAboutToCollide s)
    then Some (AboutToCollide, snd (bulletIsAboutToCollide s))
    else if out_of_playground (bullet s)
         then Some (Penalised, penalise s)
         else flight fuel directionVector (advance directionVector s).
Proof.
  simpl. unfold bulletIsAboutToCollide.
  destruct (first_collision (bullet s) (Obj.entries (bubbles s))); reflexivity.
Qed.

(** The flight only moves the bullet and advances the time, and it is left
    on the state on which one of its two tests succeeded. *)
Lemma flight_exit (fuel : nat) (directionVector : Vec2D.t) :
  forall s e s',
    flight fuel directionVector s = Some (e, s') ->
    exists s0,
      in_flight s s0
      /\ match e with
         | Penalised =>
             fst (bulletIsAboutToCollide s0) = false
             /\ out_of_playground (bullet s0) = true
             /\ s' = penalise s0
         | AboutToCollide =>
             fst (bulletIsAboutToCollide s0) = true
             /\ s' = snd (bulletIsAboutToCollide s0)
         end.
Proof.
  induction fuel as [|fuel IH]; intros s e s' F; [discriminate|].
  rewrite flight_unfold in F.
  destruct (fst (bulletIsAboutToCollide s)) eqn:C.
  - injection F as <- <-. exists s. unfold in_flight. tauto.
  - destruct (out_of_playground (bullet s)) eqn:O.
    + injection F as <- <-. exists s. unfold in_flight. tauto.
    + apply IH in F. destruct F as (s0 & I & H). exists s0. split; [|exact H].
      unfold in_flight in *. simpl in I. exact I.
Qed.

(** C7 (bulletIsAboutToCollide, lines 278-289; the loop of fireBullet, lines
    240-260).  The test answers [true] exactly when some Colored cell is at a
    distance below 1.12 from the bullet; it then records the first such cell
    of the enumeration as the wanted landing position and changes nothing
    else; and each turn of the flight loop runs the test on the current
    position before the out-of-bounds test and before the bullet moves. *)
Theorem collision_test_spec (s : State) :
  (fst (bulletIsAboutToCollide s) = true
   <-> exists k c, In (k, Some c) (bubbles s)
                   /\ (length (Vec2D.sub (key2Coord k) (bullet s)) <? 1.12) = true)
  /\ (fst (bulletIsAboutToCollide s) = true ->
      exists l1 k c l2,
        bubbles s = l1 ++ (k, Some c) :: l2
        /\ (length (Vec2D.sub (key2Coord k) (bullet s)) <? 1.12) = true
        /\ (forall e, In e l1 -> is_hit (bullet s) e = false)
        /\ snd (bulletIsAboutToCollide s) = set_wantedLandingPosition (key2Coord k) s)
  /\ (fst (bulletIsAboutToCollide s) = false -> snd (bulletIsAboutToCollide s) = s)
  /\ (forall fuel directionVector,
         flight (S fuel) directionVector s
         = if fst (bulletIsAboutToCollide s)
           then Some (AboutToCollide, snd (bulletIsAboutToCollide s))
           else if out_of_playground (bullet s)
                then Some (Penalised, penalise s)
                else flight fuel directionVector (advance directionVector s)).
Proof.
  cut ((fst (bulletIsAboutToCollide s) = true
        <-> exists k c, In (k, Some c) (bubbles s)
                        /\ (length (Vec2D.sub (key2Coord k) (bullet s)) <? 1.12) = true)
       /\ (fst (bulletIsAboutToCollide s) = true ->
           exists l1 k c l2,
             bubbles s = l1 ++ (k, Some c) :: l2
             /\ (length (Vec2D.sub (key2Coord k) (bullet s)) <? 1.12) = true
             /\ (forall e, In e l1 -> is_hit (bullet s) e = false)
             /\ snd (bulletIsAboutToCollide s) = set_wantedLandingPosition (key2Coord k) s)
       /\ (fst (bulletIsAboutToCollide s) = false -> snd (bulletIsAboutToCollide s) = s)).
  { intros (A & B & C). repeat split; try tauto.
    intros fuel d. apply flight_unfold. }
  unfold bulletIsAboutToCollide, Obj.entries. rewrite first_collision_find.
  destruct (find (is_hit (bullet s)) (bubbles s)) as [[k c]|] eqn:F; simpl.
  - pose proof (find_split _ _ _ _ F) as (l1 & l2 & G & H & N).
    unfold is_hit in H. simpl in H. destruct c as [c|]; [|discriminate].
    repeat split; try discriminate.
    + intros _. exists k, c. split; [|exact H].
      rewrite G. apply in_or_app. right. now left.
    + intros _. exists l1, k, c, l2. auto.
  - repeat split; try discriminate.
    intros (k & c & I & H). apply (find_none _ _ F) in I.
    unfold is_hit in I. simpl in I. congruence.
Qed.

(** ** newRound and the win *)

Lemma every_null_spec (g : BubbleGrid) :
  every_null g = true <-> forall k c, In (k, c) g -> c = None.
Proof.
  unfold every_null, Obj.values. rewrite forallb_forall. split.
  - intros H k c I. apply Cell_eqb_eq. apply H.
    apply in_map_iff. now exists (k, c).
  - intros H c I. apply in_map_iff in I. destruct I as [[k c'] [<- I]].
    apply Cell_eqb_eq. eauto.
Qed.

(** C4 (newRound, lines 267-276).  [newRound] writes the win text exactly
    when every cell of the grid is Empty, and writes nothing otherwise: a grid
    with one Colored cell left does not win.  Every shot that returns ends
    with [newRound]. *)
Theorem win_iff_grid_empty (s : State) :
  (scoreWrites (newRound s) = YOU_WON :: scoreWrites s
   <-> forall k c, In (k, c) (bubbles s) -> c = None)
  /\ ((exists k c, In (k, Some c) (bubbles s)) -> scoreWrites (newRound s) = scoreWrites s)
  /\ (forall l1 k c l2,
         bubbles s = l1 ++ (k, Some c) :: l2 ->
         (forall e, In e (l1 ++ l2) -> snd e = None) ->
         scoreWrites (newRound s) = scoreWrites s)
  /\ bubbles (newRound s) = bubbles s
  /\ (forall fuel s', fireBullet fuel s = Returns s' -> exists s0, s' = newRound s0).
Proof.
  assert (forall s, (exists k c, In (k, Some c) (bubbles s)) ->
                    scoreWrites (newRound s) = scoreWrites s) as Lose.
  { clear s. intros s (k & c & I). unfold newRound. simpl.
    destruct (every_null (bubbles s)) eqn:E; [|reflexivity].
    rewrite every_null_spec in E. apply E in I. discriminate. }
  repeat split.
  - intros H. apply every_null_spec. unfold newRound in H. simpl in H.
    destruct (every_null (bubbles s)); [reflexivity|]. simpl in H.
    exfalso. clear - H. revert H. generalize YOU_WON.
    induction (scoreWrites s) as [|w l IH]; intros a H; [discriminate|].
    injection H as _ H. eauto.
  - intros H. apply every_null_spec in H. unfold newRound. simpl. now rewrite H.
  - apply Lose.
  - intros l1 k c l2 G _. apply Lose. exists k, c. rewrite G.
    apply in_or_app. right. now left.
  - unfold newRound. simpl. now destruct (every_null (bubbles s)).
  - intros fuel s' H. unfold fireBullet in H.
    destruct (flight fuel (aim s) s) as [[[] s1]|] eqn:F; [| |discriminate].
    + injection H as <-. apply flight_exit in F.
      destruct F as (s0 & _ & _ & _ & ->). unfold penalise. eexists. reflexivity.
    + unfold landBullet in H. destruct (placeBullet s1) as [[fp s2]|]; [|discriminate].
      destruct (explode fuel s2 (key2Coord fp)); [|discriminate].
      injection H as <-. eexists. reflexivity.
Qed.

(** ** explode: what is cleared *)

Lemma explodes_to_clears_chain (coord : Vec2D.t) (s s' : State) (k : Key) :
  explodes_to coord s s' ->
  chain (bubbles s) (bulletColor s) coord k ->
  Obj.get (bubbles s') k = Some None.
Proof.
  intros (_ & _ & _ & T & L & _) C.
  induction C as [b S H|m b C IH S H].
  - now apply T.
  - apply (L m b); auto. clear - C. destruct C; assumption.
Qed.

Lemma symmetric_neighbours_spec (ks : list Key) (a b : Key) :
  symmetric_neighbours ks = true -> In a ks -> In b ks ->
  is_surrounding (key2Coord a) (key2Coord b) = is_surrounding (key2Coord b) (key2Coord a).
Proof.
  unfold symmetric_neighbours. rewrite forallb_forall. intros H A B.
  specialize (H a A). rewrite forallb_forall in H. now apply eqb_prop, H.
Qed.

(** C1, as the code has it (explode, lines 211-231).  On a grid with fewer
    Colored cells than the fuel, [explode(coord)] returns; it has cleared to
    Empty every cell reached from [coord] by a chain of one or more steps
    through cells of the bullet's colour, and it has changed no other cell nor
    the set of keys.  So, where the neighbour relation is symmetric (as it is
    on the lattice), the whole component of a landing cell that has a
    neighbour of its colour is cleared, the landing cell included; a landing
    cell without such a neighbour is on no chain and stays Colored. *)
Theorem explode_clears_reachable (fuel : nat) (s : State) (coord : Key) :
  unique_keys (bubbles s) = true ->
  colored_count (bubbles s) < fuel ->
  exists s',
    explode fuel s (key2Coord coord) = Some s'
    /\ Obj.keys (bubbles s') = Obj.keys (bubbles s)
    /\ (forall k, chain (bubbles s) (bulletColor s) (key2Coord coord) k ->
                  Obj.get (bubbles s') k = Some None)
    /\ (forall k, ~ chain (bubbles s) (bulletColor s) (key2Coord coord) k ->
                  Obj.get (bubbles s') k = Obj.get (bubbles s) k)
    /\ (symmetric_neighbours (Obj.keys (bubbles s)) = true ->
        Obj.get (bubbles s) coord = Some (Some (bulletColor s)) ->
        (exists n, is_surrounding (key2Coord coord) (key2Coord n) = true
                   /\ Obj.get (bubbles s) n = Some (Some (bulletColor s))) ->
        forall k, component (bubbles s) (bulletColor s) coord k ->
                  Obj.get (bubbles s') k = Some None).
Proof.
  intros U N. apply unique_keys_NoDup in U.
  destruct (explode_total fuel s (key2Coord coord) U N) as [s' E].
  exists s'. split; [exact E|].
  pose proof (explode_sound _ _ _ _ U E) as X.
  assert (forall k, chain (bubbles s) (bulletColor s) (key2Coord coord) k ->
                    Obj.get (bubbles s') k = Some None) as C
      by (intros k; now apply explodes_to_clears_chain).
  destruct X as (_ & K & M & _).
  split; [exact K|]. split; [exact C|]. split.
  - intros k NC. destruct (M k) as [X|(_ & _ & X)]; [exact X|contradiction].
  - intros Sym Hc (n & S1 & Hn) k [->|Ck]; [|now apply C].
    apply C. eapply chain_more; [apply chain_one; eassumption| |exact Hc].
    rewrite (symmetric_neighbours_spec _ _ _ Sym); [exact S1| |];
      eapply get_Some_keys; eassumption.
Qed.

(** ** A landing without neighbour of its colour *)

Lemma landBullet_steps (fuel : nat) (s s' : State) :
  NoDup (Obj.keys (bubbles s)) ->
  landBullet fuel s = Returns s' ->
  exists fp s2 s3 l1 l2,
    placeBullet s = Some (fp, s2)
    /\ bubbles s = l1 ++ (fp, None) :: l2
    /\ bubbles s2 = l1 ++ (fp, Some (bulletColor s)) :: l2
    /\ s2 = set_bubbles (bubbles s2) (set_bullet (key2Coord fp) s)
    /\ explode fuel s2 (key2Coord fp) = Some s3
    /\ explodes_to (key2Coord fp) s2 s3
    /\ s' = newRound s3.
Proof.
  intros U E. unfold landBullet in E.
  destruct (placeBullet s) as [[fp s2]|] eqn:P; [|discriminate].
  destruct (explode fuel s2 (key2Coord fp)) as [s3|] eqn:X; [|discriminate].
  injection E as <-.
  destruct (placeBullet_in_grid _ _ _ U P) as (l1 & l2 & G & G2 & S2).
  assert (NoDup (Obj.keys (bubbles s2))) as U2.
  { rewrite G2. rewrite G in U. unfold Obj.keys in *. rewrite map_app in *. exact U. }
  pose proof (explode_sound _ _ _ _ U2 X) as X'.
  exists fp, s2, s3, l1, l2.
  exact (conj eq_refl (conj G (conj G2 (conj S2 (conj X (conj X' eq_refl)))))).
Qed.

(** A landing ends within the fuel: it returns, or throws when no cell
    around the wanted position is free. *)
Lemma landBullet_ends (fuel : nat) (s : State) :
  NoDup (Obj.keys (bubbles s)) ->
  S (colored_count (bubbles s)) < fuel ->
  landBullet fuel s <> OutOfFuel.
Proof.
  intros U N. unfold landBullet.
  destruct (placeBullet s) as [[fp s2]|] eqn:P; [|discriminate].
  destruct (placeBullet_in_grid _ _ _ U P) as (l1 & l2 & G & G2 & _).
  destruct (explode_total fuel s2 (key2Coord fp)) as [s3 ->]; [| |discriminate].
  - rewrite G2. rewrite G in U. unfold Obj.keys in *. rewrite map_app in *. exact U.
  - rewrite G2, colored_count_middle. rewrite G in N. exact N.
Qed.

Lemma newRound_keeps (s : State) :
  bubbles (newRound s) = bubbles s /\ score (newRound s) = score s
  /\ gun (newRound s) = gun s
  /\ wantedLandingPosition (newRound s) = wantedLandingPosition s.
Proof. unfold newRound. simpl. destruct (every_null (bubbles s)); simpl; auto. Qed.

(** C10 (explode, lines 219-230; landBullet, lines 157-162).  When the cell
    the landing step has just coloured has no neighbour of the bullet's
    colour, [explode] on it returns the state it was given: no cell and no
    point changes, the new bubble stays Colored, and [landBullet] ends the
    round with the grid and the score it had after placing the bubble. *)
Theorem isolated_landing_stays (fuel : nat) (s s2 : State) (fp : Key) :
  unique_keys (bubbles s) = true ->
  placeBullet s = Some (fp, s2) ->
  getSurroundingBubbles (bubbles s2) (key2Coord fp) (Some (bulletColor s2)) = [] ->
  explode (S fuel) s2 (key2Coord fp) = Some s2
  /\ Obj.get (bubbles s2) fp = Some (Some (bulletColor s2))
  /\ landBullet (S fuel) s = Returns (newRound s2)
  /\ bubbles (newRound s2) = bubbles s2
  /\ score (newRound s2) = score s.
Proof.
  intros U P E. apply unique_keys_NoDup in U.
  assert (explode (S fuel) s2 (key2Coord fp) = Some s2) as X
      by (simpl; rewrite E; reflexivity).
  destruct (placeBullet_in_grid _ _ _ U P) as (l1 & l2 & G & G2 & S2).
  repeat split.
  - exact X.
  - assert (bulletColor s2 = bulletColor s) as -> by (rewrite S2; reflexivity).
    apply In_get.
    + rewrite G2. rewrite G in U. unfold Obj.keys in *. rewrite map_app in *. exact U.
    + rewrite G2. apply in_or_app. right. now left.
  - unfold landBullet. rewrite P, X. reflexivity.
  - apply newRound_keeps.
  - destruct (newRound_keeps s2) as (_ & -> & _). rewrite S2. reflexivity.
Qed.

(** ** The keys of the grid never change *)

Lemma fireBullet_steps (fuel : nat) (s s' : State) :
  fireBullet fuel s = Returns s' ->
  exists s0,
    in_flight s s0
    /\ ((shot_exit fuel s = Some Penalised /\ s' = penalise s0)
        \/ (shot_exit fuel s = Some AboutToCollide
            /\ exists k, landBullet fuel (set_wantedLandingPosition k s0) = Returns s')).
Proof.
  unfold fireBullet, shot_exit. intros H.
  destruct (flight fuel (aim s) s) as [[e s1]|] eqn:F; [|discriminate].
  apply flight_exit in F. destruct F as (s0 & I & X). exists s0. split; [exact I|].
  destruct e; simpl.
  - left. destruct X as (_ & _ & ->). injection H as <-. auto.
  - right. split; [reflexivity|]. destruct X as (C & ->).
    unfold bulletIsAboutToCollide in *.
    destruct (first_collision (bullet s0) (Obj.entries (bubbles s0))) as [w|];
      [|discriminate].
    exists w. exact H.
Qed.

Lemma fireBullet_keys (fuel : nat) (s s' : State) :
  NoDup (Obj.keys (bubbles s)) ->
  fireBullet fuel s = Returns s' ->
  Obj.keys (bubbles s') = Obj.keys (bubbles s).
Proof.
  intros U H. apply fireBullet_steps in H.
  destruct H as (s0 & (_ & G & _) & [[_ ->]|[_ [w H]]]).
  - unfold penalise. destruct (newRound_keeps (updateScore (set_score (score s0 - 10) s0))) as [-> _].
    simpl. now rewrite G.
  - apply landBullet_steps in H; [|simpl; now rewrite G].
    destruct H as (fp & s2 & s3 & l1 & l2 & _ & G0 & G2 & _ & _ & X & ->).
    destruct (newRound_keeps s3) as [-> _].
    destruct X as (_ & -> & _). rewrite G2. simpl in G0. rewrite <- G, G0.
    unfold Obj.keys. rewrite !map_app. reflexivity.
Qed.

Lemma handle_keys (fuel : nat) (i : Input) (s s' : State) :
  NoDup (Obj.keys (bubbles s)) ->
  handle fuel i s = Returns s' ->
  Obj.keys (bubbles s') = Obj.keys (bubbles s).
Proof.
  intros U H. destruct i; simpl in H.
  - now injection H as <-.
  - eapply fireBullet_keys; eauto.
  - now injection H as <-.
Qed.

Lemma play_keys (fuel : nat) (inputs : list Input) :
  forall s s',
    NoDup (Obj.keys (bubbles s)) ->
    play fuel inputs s = Returns s' ->
    Obj.keys (bubbles s') = Obj.keys (bubbles s).
Proof.
  induction inputs as [|i inputs IH]; intros s s' U H; simpl in H.
  - now injection H as <-.
  - destruct (handle fuel i s) as [s1| |] eqn:E; try discriminate.
    pose proof (handle_keys _ _ _ _ U E) as K.
    rewrite <- K. apply IH; [now rewrite K|exact H].
Qed.

(** C5 (landBullet, lines 153-160; explode, lines 223-228).  On a grid whose
    keys are unique, whatever is played, the list of keys of the grid stays
    the same: a landing writes to a key that is present and Empty, and an
    explosion writes Empty to keys that are present. *)
Theorem grid_keys_invariant (s : State) :
  unique_keys (bubbles s) = true ->
  (forall fp s2,
      placeBullet s = Some (fp, s2) ->
      In fp (Obj.keys (bubbles s))
      /\ Obj.get (bubbles s) fp = Some None
      /\ Obj.keys (bubbles s2) = Obj.keys (bubbles s))
  /\ (forall fuel coord,
         colored_count (bubbles s) < fuel -> exists s', explode fuel s coord = Some s')
  /\ (forall fuel coord s',
         explode fuel s coord = Some s' ->
         Obj.keys (bubbles s') = Obj.keys (bubbles s)
         /\ forall k, Obj.get (bubbles s') k = Obj.get (bubbles s) k
                      \/ (In k (Obj.keys (bubbles s)) /\ Obj.get (bubbles s') k = Some None))
  /\ (forall fuel inputs s',
         play fuel inputs s = Returns s' ->
         Obj.keys (bubbles s') = Obj.keys (bubbles s)).
Proof.
  intros U. apply unique_keys_NoDup in U. split; [|split; [|split]];
    [|intros fuel coord N; now apply explode_total| |].
  - intros fp s2 H.
    destruct (placeBullet_in_grid _ _ _ U H) as (l1 & l2 & G & G2 & _).
    split; [|split].
    + rewrite G. unfold Obj.keys. rewrite map_app. apply in_or_app. right. now left.
    + apply In_get; [exact U|]. rewrite G. apply in_or_app. right. now left.
    + rewrite G, G2. unfold Obj.keys. rewrite !map_app. reflexivity.
  - intros fuel coord s' H. apply explode_sound in H; [|exact U].
    destruct H as (_ & K & M & _). split; [exact K|].
    intros k. destruct (M k) as [X|(X & Y & _)]; [now left|right].
    split; [|exact Y]. eapply get_Some_keys; eauto.
  - intros fuel inputs s' H. eapply play_keys; eauto.
Qed.

(** ** The score *)

Lemma filter_length_split (A : Type) (p p' q : A -> bool) (l : list A) :
  (forall a, In a l -> p a = p' a || q a) ->
  (forall a, In a l -> p' a && q a = false) ->
  (List.length (filter p l) = List.length (filter p' l) + List.length (filter q l))%nat.
Proof.
  induction l as [|a l IH]; intros H1 H2; simpl; [reflexivity|].
  rewrite (H1 a) by now left.
  assert (List.length (filter p l)
          = List.length (filter p' l) + List.length (filter q l))%nat as E.
  { apply IH; intros b I; [apply H1 | apply H2]; now right. }
  specialize (H2 a (or_introl eq_refl)).
  destruct (p' a), (q a); simpl in *; try discriminate; lia.
Qed.

Lemma colored_count_keys (g : BubbleGrid) :
  NoDup (Obj.keys g) ->
  colored_count g
  = List.length (filter (fun k => match Obj.get g k with
                                  | Some (Some _) => true
                                  | _ => false
                                  end) (Obj.keys g)).
Proof.
  unfold colored_count, Obj.values.
  induction g as [|[k v] g IH]; intros U; simpl; [reflexivity|].
  inversion U as [|? ? N U']; subst. rewrite Key_eqb_refl.
  rewrite (filter_ext_in _ (fun k' => match Obj.get g k' with
                                      | Some (Some _) => true
                                      | _ => false
                                      end) (Obj.keys g)).
  - destruct v as [c|]; simpl; now rewrite IH.
  - intros k' I. destruct (Key_eqb k k') eqn:E; [|reflexivity].
    apply Key_eqb_eq in E. subst. contradiction.
Qed.

Lemma explosion_cleared (targets reached : Key -> Prop) (s s' : State) :
  NoDup (Obj.keys (bubbles s)) ->
  explosion targets reached s s' ->
  score s' = (score s + 10 * Z.of_nat (List.length (cleared_cells (bubbles s) (bubbles s'))))%Z.
Proof.
  intros U (_ & K & M & _ & _ & _ & S).
  assert (colored_count (bubbles s)
          = colored_count (bubbles s')
            + List.length (cleared_cells (bubbles s) (bubbles s')))%nat as C; [|lia].
  rewrite !colored_count_keys by (rewrite ?K; exact U). rewrite K.
  unfold cleared_cells. apply filter_length_split.
  - intros k _. destruct (M k) as [->|(-> & -> & _)]; [|reflexivity].
    destruct (Obj.get (bubbles s) k) as [[c|]|]; reflexivity.
  - intros k _. destruct (M k) as [->|(-> & -> & _)]; [|reflexivity].
    destruct (Obj.get (bubbles s) k) as [[c|]|]; reflexivity.
Qed.

Lemma fireBullet_score (fuel : nat) (s s' : State) :
  NoDup (Obj.keys (bubbles s)) ->
  fireBullet fuel s = Returns s' ->
  (shot_exit fuel s = Some Penalised
   /\ score s' = (score s - 10)%Z /\ bubbles s' = bubbles s)
  \/ (shot_exit fuel s = Some AboutToCollide
      /\ exists fp g2,
          Obj.get (bubbles s) fp = Some None
          /\ g2 = Obj.set (bubbles s) fp (Some (bulletColor s))
          /\ colored_count g2 = S (colored_count (bubbles s))
          /\ score s' = (score s + 10 * Z.of_nat (List.length (cleared_cells g2 (bubbles s'))))%Z
          /\ (score s' + 10 * Z.of_nat (colored_count (bubbles s'))
              = score s + 10 * Z.of_nat (colored_count g2))%Z).
Proof.
  intros U H. apply fireBullet_steps in H.
  destruct H as (s0 & (_ & G & Cl & Sc & _) & [[E ->]|[E [w H]]]).
  - left. split; [exact E|]. unfold penalise.
    destruct (newRound_keeps (updateScore (set_score (score s0 - 10) s0))) as (-> & -> & _).
    simpl. now rewrite G, Sc.
  - right. split; [exact E|].
    apply landBullet_steps in H; [|simpl; now rewrite G].
    destruct H as (fp & s2 & s3 & l1 & l2 & _ & G0 & G2 & S2 & _ & X & ->).
    simpl in G0, G2. rewrite G in G0. rewrite Cl in G2.
    assert (~ In fp (Obj.keys l1)) as Nfp.
    { rewrite G0 in U. eapply NoDup_keys_middle; eauto. }
    assert (NoDup (Obj.keys (bubbles s2))) as U2.
    { rewrite G2. rewrite G0 in U. unfold Obj.keys in *. rewrite map_app in *. exact U. }
    assert (score s2 = score s) as Sc2 by (rewrite S2; simpl; exact Sc).
    exists fp, (bubbles s2). destruct (newRound_keeps s3) as (-> & -> & _).
    rewrite <- Sc2. split; [|split; [|split; [|split]]].
    + apply In_get; [exact U|]. rewrite G0. apply in_or_app. right. now left.
    + rewrite G2, G0. symmetry. now apply set_middle.
    + rewrite G2, G0. apply colored_count_middle.
    + eapply explosion_cleared; eauto.
    + now destruct X as (_ & _ & _ & _ & _ & _ & S).
Qed.

Lemma play_score (fuel : nat) (inputs : list Input) :
  forall s s',
    NoDup (Obj.keys (bubbles s)) ->
    play fuel inputs s = Returns s' ->
    (score s' + 10 * Z.of_nat (colored_count (bubbles s'))
     = score s + 10 * Z.of_nat (colored_count (bubbles s) + fst (tally fuel inputs s))%nat
       - 10 * Z.of_nat (snd (tally fuel inputs s)))%Z.
Proof.
  induction inputs as [|i inputs IH]; intros s s' U H; cbn [play tally] in *.
  - injection H as <-. cbn [fst snd]. lia.
  - destruct (handle fuel i s) as [s1| |] eqn:E; try discriminate.
    pose proof (handle_keys _ _ _ _ U E) as K.
    specialize (IH s1 s' ltac:(now rewrite K) H).
    destruct (tally fuel inputs s1) as [landed lost]. cbn [fst snd] in IH.
    destruct i; cbn [handle] in E.
    + injection E as <-. cbn [fst snd set_gun bubbles score] in *. lia.
    + destruct (fireBullet_score _ _ _ U E)
        as [(X & Sc & G)|(X & fp & g2 & _ & _ & C & _ & Sc)];
        rewrite X; cbn [fst snd]; [rewrite G in IH|]; lia.
    + injection E as <-. cbn [fst snd rotateGun set_gun bubbles score] in *. lia.
Qed.

(** C3 (explode, lines 223-229; fireBullet, lines 240-250).  The score moves
    in two ways only.  An explosion adds 10 for each cell it turns from
    Colored to Empty, once per cell; a shot that leaves the play area takes 10
    and touches no cell.  So after any inputs the score is the initial score
    plus 10 for every cell cleared (the Colored cells at the start, plus one
    per landed shot, minus those left) minus 10 for every lost shot.  Aiming,
    rotating the gun, the collision test, the flight steps, placing the
    bullet and starting a round leave the score as it is. *)
Theorem score_accounting (s : State) :
  unique_keys (bubbles s) = true ->
  (forall fuel coord,
      colored_count (bubbles s) < fuel -> exists s', explode fuel s coord = Some s')
  /\ (forall fuel coord s',
      explode fuel s coord = Some s' ->
      score s' = (score s + 10 * Z.of_nat (List.length (cleared_cells (bubbles s) (bubbles s'))))%Z)
  /\ (forall fuel s',
         fireBullet fuel s = Returns s' ->
         (shot_exit fuel s = Some Penalised
          /\ score s' = (score s - 10)%Z /\ bubbles s' = bubbles s)
         \/ (shot_exit fuel s = Some AboutToCollide
             /\ exists fp g2,
                 Obj.get (bubbles s) fp = Some None
                 /\ g2 = Obj.set (bubbles s) fp (Some (bulletColor s))
                 /\ score s'
                    = (score s + 10 * Z.of_nat (List.length (cleared_cells g2 (bubbles s'))))%Z))
  /\ (forall fuel inputs s',
         play fuel inputs s = Returns s' ->
         (score s' + 10 * Z.of_nat (colored_count (bubbles s'))
          = score s + 10 * Z.of_nat (colored_count (bubbles s) + fst (tally fuel inputs s))%nat
            - 10 * Z.of_nat (snd (tally fuel inputs s)))%Z)
  /\ (forall offset, score (set_gun (canvas2Math offset) s) = score s)
  /\ (forall direction, score (rotateGun direction s) = score s)
  /\ score (snd (bulletIsAboutToCollide s)) = score s
  /\ (forall directionVector, score (advance directionVector s) = score s)
  /\ (forall fp s2, placeBullet s = Some (fp, s2) -> score s2 = score s)
  /\ score (newRound s) = score s.
Proof.
  intros U. apply unique_keys_NoDup in U.
  split; [|split; [|split; [|split; [|repeat split]]]].
  - intros fuel coord N. now apply explode_total.
  - intros fuel coord s' H. eapply explosion_cleared; [exact U|].
    eapply explode_sound; eauto.
  - intros fuel s' H.
    destruct (fireBullet_score _ _ _ U H) as [X|(X & fp & g2 & Hfp & G2 & _ & Sc & _)];
      [now left|right].
    split; [exact X|]. now exists fp, g2.
  - intros fuel inputs s'. now apply play_score.
  - unfold bulletIsAboutToCollide.
    now destruct (first_collision (bullet s) (Obj.entries (bubbles s))).
  - intros fp s2 H. unfold placeBullet in H.
    destruct (finalPosition s); [|discriminate]. now injection H as _ <-.
  - apply newRound_keeps.
Qed.

(** ** A shot on a grid without bubble *)

Lemma first_collision_none (b : Vec2D.t) (g : BubbleGrid) :
  every_null g = true -> first_collision b g = None.
Proof.
  rewrite every_null_spec. induction g as [|[k c] g IH]; intros H; simpl; [reflexivity|].
  rewrite (H k c) by now left. apply IH. intros k' c' I. apply (H k'). now right.
Qed.

Lemma flight_free (fuel : nat) (directionVector : Vec2D.t) :
  forall s,
    every_null (bubbles s) = true ->
    flight fuel directionVector s
    = option_map
        (fun bt => (Penalised, penalise (set_time (snd bt) (set_bullet (fst bt) s))))
        (free_flight fuel directionVector (bullet s) (time s)).
Proof.
  induction fuel as [|fuel IH]; intros s E; [reflexivity|].
  rewrite flight_unfold. unfold bulletIsAboutToCollide, Obj.entries.
  rewrite first_collision_none by exact E. cbn [fst snd free_flight].
  destruct (out_of_playground (bullet s)).
  - destruct s; reflexivity.
  - rewrite IH by exact E. destruct s; reflexivity.
Qed.

Lemma free_flight_more (fuel n : nat) (d : Vec2D.t) :
  forall b t r,
    free_flight fuel d b t = Some r -> free_flight (fuel + n) d b t = Some r.
Proof.
  induction fuel as [|fuel IH]; intros b t r H; [discriminate|].
  cbn [free_flight Nat.add] in *.
  destruct (out_of_playground b); [exact H|]. now apply IH.
Qed.

(** X12, the scenario of the specification (fireBullet, lines 233-261;
    [Bullet.shoot]).  On a grid without Colored cell, a shot straight up from
    the origin leaves the flight loop on its 43rd turn, at [(0, 30.75)], above
    the playground: it returns by the out-of-bounds branch, nothing has
    landed, the grid is as it was and the score has lost 10. *)
Theorem straight_up_shot_is_lost (fuel : nat) (s : State) :
  every_null (bubbles s) = true ->
  gun s = createGun ->
  bullet s = createBullet ->
  time s = 0 ->
  Math_hypot 0 1 = 1 ->
  43 <= fuel ->
  let s0 := set_time 31.5 (set_bullet (Vec2D.mk 0 30.75) s) in
  shot_exit fuel s = Some Penalised
  /\ fireBullet fuel s = Returns (penalise s0)
  /\ out_of_playground (bullet s0) = true
  /\ bubbles (penalise s0) = bubbles s
  /\ score (penalise s0) = (score s - 10)%Z.
Proof.
  intros E G B T H F.
  assert (aim s = Vec2D.mk 0 1) as A.
  { unfold aim, length. rewrite G.
    change (Vec2D.sub createGun gunOrigin) with (Vec2D.mk 0 1).
    cbn [Vec2D.x Vec2D.y]. rewrite H. reflexivity. }
  assert (free_flight fuel (Vec2D.mk 0 1) createBullet 0
          = Some (Vec2D.mk 0 30.75, 31.5)) as P.
  { replace fuel with (43 + (fuel - 43))%nat by lia.
    apply free_flight_more. vm_compute. reflexivity. }
  assert (flight fuel (aim s) s
          = Some (Penalised, penalise (set_time 31.5 (set_bullet (Vec2D.mk 0 30.75) s)))) as X.
  { rewrite flight_free by exact E. rewrite A, B, T, P. reflexivity. }
  cbv zeta. unfold shot_exit, fireBullet. rewrite X. repeat split.
  - unfold penalise. now destruct (newRound_keeps (updateScore
        (set_score (score (set_time 31.5 (set_bullet (Vec2D.mk 0 30.75) s)) - 10)
                   (set_time 31.5 (set_bullet (Vec2D.mk 0 30.75) s))))) as (-> & _).
  - unfold penalise. now destruct (newRound_keeps (updateScore
        (set_score (score (set_time 31.5 (set_bullet (Vec2D.mk 0 30.75) s)) - 10)
                   (set_time 31.5 (set_bullet (Vec2D.mk 0 30.75) s))))) as (_ & -> & _).
Qed.

Lemma free_flight_nan (fuel : nat) :
  forall t, free_flight fuel (Vec2D.mk nan nan) (Vec2D.mk nan nan) t = None.
Proof.
  induction fuel as [|fuel IH]; intros t; [reflexivity|].
  cbn [free_flight].
  change (out_of_playground (Vec2D.mk nan nan)) with false. cbv iota.
  unfold Vec2D.add, Vec2D.scalarMul, gunOrigin. cbn [Vec2D.x Vec2D.y].
  rewrite nan_mul, add_nan. apply IH.
Qed.

(** C8, on the aim [(0, 0)] (fireBullet, lines 237-258).  The direction is
    then [0 / 0], not a number; after the first turn so is the position of the
    bullet, which no test of the loop can tell from a position inside the
    playground: on a grid without Colored cell the flight is still in the loop
    after any number of turns, and the shot never returns. *)
Theorem zero_aim_shot_never_returns (fuel : nat) (s : State) :
  every_null (bubbles s) = true ->
  gun s = Vec2D.mk 0 0 ->
  out_of_playground (bullet s) = false ->
  Math_hypot 0 0 = 0 ->
  flight fuel (aim s) s = None /\ fireBullet fuel s = OutOfFuel.
Proof.
  intros E G B H.
  assert (aim s = Vec2D.mk nan nan) as A.
  { unfold aim, length. rewrite G.
    change (Vec2D.sub (Vec2D.mk 0 0) gunOrigin) with (Vec2D.mk 0 0).
    cbn [Vec2D.x Vec2D.y]. rewrite H. reflexivity. }
  assert (flight fuel (aim s) s = None) as X.
  { rewrite flight_free by exact E. rewrite A.
    destruct fuel as [|fuel]; [reflexivity|]. cbn [free_flight]. rewrite B.
    unfold Vec2D.add, Vec2D.scalarMul, gunOrigin. cbn [Vec2D.x Vec2D.y].
    rewrite nan_mul, add_nan, free_flight_nan. reflexivity. }
  split; [exact X|]. unfold fireBullet. now rewrite X.
Qed.

(** ** createBubbleGrid *)

Lemma createBubbleGrid_dense_grid (n : nat) :
  createBubbleGrid n = (dense_grid n, (200 + n)%nat).
Proof. vm_compute. reflexivity. Qed.

Lemma dense_grid_keys (n : nat) : on_lattice (dense_grid n).
Proof. vm_compute. reflexivity. Qed.

Lemma dense_grid_unique (n : nat) :
  unique_keys (dense_grid n) = true /\ distinct_positions (Obj.keys (dense_grid n)) = true.
Proof. rewrite dense_grid_keys. split; vm_compute; reflexivity. Qed.

Lemma dense_grid_entry (n row col : nat) :
  row < PLAYGROUND_HEIGHT -> col < PLAYGROUND_WIDTH ->
  In (cell_position row col,
      if (row <? 5)%nat then Some (sample (col + row * PLAYGROUND_WIDTH + n)) else None)
     (dense_grid n).
Proof.
  intros R C. unfold dense_grid. apply in_flat_map. exists row. split.
  - apply in_seq. lia.
  - apply in_map_iff. exists col. split; [reflexivity|]. apply in_seq. lia.
Qed.

(** C9 (createBubbleGrid, lines 304-321).  The grid created is the dense
    one: one entry for each row [r] below the height and column [c] below the
    width, in that order, keyed by [x = c + (r odd ? 0.5 : 0) - width / 2],
    [y = - r + height]; its state is a sampled colour when [r < 5] and Empty
    otherwise; no two entries share a key or a position, and 200 colours have
    been sampled. *)
Theorem createBubbleGrid_dense (n : nat) :
  fst (createBubbleGrid n) = dense_grid n
  /\ snd (createBubbleGrid n) = (200 + n)%nat
  /\ List.length (fst (createBubbleGrid n)) = (PLAYGROUND_WIDTH * PLAYGROUND_HEIGHT)%nat
  /\ unique_keys (fst (createBubbleGrid n)) = true
  /\ distinct_positions (Obj.keys (fst (createBubbleGrid n))) = true
  /\ (forall row col,
         row < PLAYGROUND_HEIGHT -> col < PLAYGROUND_WIDTH ->
         coord2Index (cell_position row col) = cell_position row col
         /\ Obj.get (fst (createBubbleGrid n)) (cell_position row col)
            = Some (if (row <? 5)%nat
                    then Some (sample (col + row * PLAYGROUND_WIDTH + n))
                    else None))
  /\ (forall k c,
         In (k, c) (fst (createBubbleGrid n)) ->
         exists row col,
           row < PLAYGROUND_HEIGHT /\ col < PLAYGROUND_WIDTH
           /\ k = cell_position row col
           /\ c = if (row <? 5)%nat
                  then Some (sample (col + row * PLAYGROUND_WIDTH + n))
                  else None).
Proof.
  rewrite createBubbleGrid_dense_grid. cbn [fst snd].
  destruct (dense_grid_unique n) as [U D].
  split; [reflexivity|]. split; [reflexivity|]. split; [|split; [exact U|split; [exact D|split]]].
  - unfold dense_grid. rewrite (flat_map_constant_length (c := PLAYGROUND_WIDTH)).
    + now rewrite length_seq.
    + intros row _. now rewrite length_map, length_seq.
  - intros row col R C. split.
    + assert (In (cell_position row col) (Obj.keys (dense_grid n))) as I
          by apply (in_map fst _ _ (dense_grid_entry n row col R C)).
      rewrite dense_grid_keys in I. clear - I.
      assert (forallb (fun k => Key_eqb (coord2Index k) k) lattice_keys = true) as X
          by (vm_compute; reflexivity).
      rewrite forallb_forall in X. apply Key_eqb_eq. now apply X.
    + apply In_get; [now apply unique_keys_NoDup|]. now apply dense_grid_entry.
  - intros k c I. unfold dense_grid in I. apply in_flat_map in I.
    destruct I as (row & R & I). apply in_map_iff in I. destruct I as (col & E & C).
    apply in_seq in R. apply in_seq in C. injection E as <- <-.
    exists row, col. repeat split; auto; lia.
Qed.

(** ** The grids the game reaches *)

Lemma lattice_keys_NoDup : NoDup lattice_keys.
Proof.
  assert (unique_keys (map (fun k => (k, tt)) lattice_keys) = true) as U
      by (vm_compute; reflexivity).
  apply unique_keys_NoDup in U. unfold Obj.keys in U.
  rewrite map_map, map_id in U. exact U.
Qed.

Lemma lattice_well_formed (g : BubbleGrid) :
  on_lattice g ->
  unique_keys g = true
  /\ distinct_positions (Obj.keys g) = true
  /\ symmetric_neighbours (Obj.keys g) = true.
Proof.
  intros L. split; [|split].
  - apply unique_keys_NoDup. rewrite L. apply lattice_keys_NoDup.
  - rewrite L. vm_compute. reflexivity.
  - rewrite L. vm_compute. reflexivity.
Qed.

Lemma new_game_on_lattice (n : nat) (writes : list ScoreText) :
  on_lattice (bubbles (BubbleShooter_new n writes)).
Proof.
  unfold BubbleShooter_new. rewrite createBubbleGrid_dense_grid.
  apply dense_grid_keys.
Qed.

Lemma play_on_lattice (fuel : nat) (inputs : list Input) (s s' : State) :
  on_lattice (bubbles s) ->
  play fuel inputs s = Returns s' ->
  on_lattice (bubbles s').
Proof.
  intros L P. unfold on_lattice.
  rewrite (play_keys fuel inputs s s'); [exact L| |exact P].
  apply unique_keys_NoDup, lattice_well_formed, L.
Qed.

(** The hypothesis of C10 in words: no cell of the bullet's colour is around
    the landing cell. *)
Lemma no_neighbour_of_colour (g : BubbleGrid) (coord : Vec2D.t) (c : Color) :
  unique_keys g = true ->
  getSurroundingBubbles g coord (Some c) = []
  <-> forall k, is_surrounding coord (key2Coord k) = true -> Obj.get g k <> Some (Some c).
Proof.
  intros U. apply unique_keys_NoDup in U. split.
  - intros E k S H.
    assert (In k (Obj.keys (getSurroundingBubbles g coord (Some c)))) as I
        by (apply keys_surrounding; auto).
    rewrite E in I. exact I.
  - intros H. destruct (getSurroundingBubbles g coord (Some c)) as [|[k v] r] eqn:E;
      [reflexivity|].
    assert (In k (Obj.keys (getSurroundingBubbles g coord (Some c)))) as I
        by (rewrite E; now left).
    apply keys_surrounding in I; [|exact U]. destruct I as [S G].
    now apply H in S.
Qed.

(** Whatever is played from a new game, the grid keeps the created keys. *)
Lemma seeded_footprint_invariant
      (n : nat) (writes : list ScoreText) (fuel : nat) (inputs : list Input) (s' : State) :
  play fuel inputs (BubbleShooter_new n writes) = Returns s' ->
  on_lattice (bubbles s').
Proof. apply play_on_lattice, new_game_on_lattice. Qed.

(** On the lattice the vector from a cell to a cell around it is exactly one
    of the six offsets. *)
Lemma lattice_offsets_exact (w k : Key) :
  In w lattice_keys -> In k lattice_keys ->
  is_surrounding (key2Coord w) (key2Coord k) = true ->
  In (Vec2D.sub (key2Coord k) w) six_offsets.
Proof.
  assert (forallb
            (fun w => forallb
                        (fun k => implb (is_surrounding (key2Coord w) (key2Coord k))
                                        (existsb (Key_eqb (Vec2D.sub (key2Coord k) w))
                                                 six_offsets))
                        lattice_keys)
            lattice_keys = true) as X by (vm_compute; reflexivity).
  intros W K S. rewrite forallb_forall in X. specialize (X w W).
  rewrite forallb_forall in X. specialize (X k K). rewrite S in X.
  cbn [implb] in X. apply existsb_exists in X. destruct X as (d & I & E).
  apply Key_eqb_eq in E. now rewrite E.
Qed.

(** The third hypothesis of C2 holds in the game: on the lattice, the
    distances of the candidates are numbers as soon as [Math.hypot] returns
    numbers on the six offsets. *)
Lemma lattice_landing_distances (s : State) :
  on_lattice (bubbles s) ->
  In (wantedLandingPosition s) lattice_keys ->
  (forall d, In d six_offsets -> is_nan (Math_hypot (Vec2D.x d) (Vec2D.y d)) = false) ->
  forallb (fun k => negb (is_nan (landing_distance s k))) (landing_candidates s) = true.
Proof.
  intros L W H. apply forallb_forall. intros k I.
  destruct (lattice_well_formed _ L) as (U & _).
  apply landing_candidates_spec in I; [|now apply unique_keys_NoDup].
  destruct I as [S G]. apply get_Some_keys in G.
  assert (In k lattice_keys) as G' by (rewrite <- L; exact G).
  unfold landing_distance, length. rewrite is_nan_abs.
  now rewrite (H _ (lattice_offsets_exact _ _ W G' S)).
Qed.

(** ** More on getSurroundingBubbles: nothing is missed *)

Lemma is_nan_true (a : float) : is_nan a = true -> a = nan.
Proof.
  intros H. apply Prim2SF_inj. change (Prim2SF nan) with S754_nan.
  destruct (Prim2SF a) eqn:E; try reflexivity; exfalso;
    apply not_false_iff_true in H; apply H; apply is_nan_false;
    rewrite E; discriminate.
Qed.

Lemma eqb_nan_r (a : float) : (a =? nan) = false.
Proof.
  rewrite eqb_spec. change (Prim2SF nan) with S754_nan.
  now destruct (Prim2SF a) as [[]|[]| |[] m e].
Qed.

Lemma nan_add (a : float) : nan + a = nan.
Proof.
  apply Prim2SF_inj. rewrite add_spec.
  change (Prim2SF nan) with S754_nan. reflexivity.
Qed.

Lemma nan_sub (a : float) : nan - a = nan.
Proof.
  apply Prim2SF_inj. rewrite sub_spec.
  change (Prim2SF nan) with S754_nan. reflexivity.
Qed.

Lemma is_surrounding_nan (coord b : Vec2D.t) :
  is_nan (Vec2D.x coord) = true \/ is_nan (Vec2D.y coord) = true ->
  is_surrounding coord b = false.
Proof.
  unfold is_surrounding. intros [H|H]; apply is_nan_true in H; rewrite H;
    cbv zeta; rewrite ?nan_add, ?nan_sub, !eqb_nan_r, ?andb_false_r; reflexivity.
Qed.

(** X1 (getSurroundingBubbles, lines 165-209).  On a grid whose keys are
    unique the two loops return exactly the entries of the grid that are
    around [coord] and pass the filter, in the order of the grid: no cell
    around [coord] is missed, and the result has unique keys again.  Around a
    position with a [NaN] coordinate there is no cell at all. *)
Theorem getSurroundingBubbles_complete
        (g : BubbleGrid) (coord : Vec2D.t) (keepOnly : option Color) :
  unique_keys g = true ->
  getSurroundingBubbles g coord keepOnly = filter (surrounds coord keepOnly) g
  /\ (forall k v,
         In (k, v) (getSurroundingBubbles g coord keepOnly)
         <-> In (k, v) g /\ is_surrounding coord (key2Coord k) = true /\ v = keepOnly)
  /\ unique_keys (getSurroundingBubbles g coord keepOnly) = true
  /\ (is_nan (Vec2D.x coord) = true \/ is_nan (Vec2D.y coord) = true ->
      getSurroundingBubbles g coord keepOnly = []).
Proof.
  intros U. apply unique_keys_NoDup in U.
  rewrite getSurroundingBubbles_filter by exact U.
  split; [reflexivity|]. split; [|split].
  - intros k v. rewrite filter_In. unfold surrounds. cbn [fst snd].
    rewrite andb_true_iff, is_kept_eq. tauto.
  - apply unique_keys_NoDup. now apply NoDup_keys_filter.
  - intros N. rewrite <- (filter_ext_in (fun _ => false)).
    + clear. induction g as [|e g IH]; [reflexivity|exact IH].
    + intros [k v] _. unfold surrounds. cbn [fst snd].
      now rewrite (is_surrounding_nan _ _ N).
Qed.

(** ** landBullet without a free cell *)

Lemma fold_min2_nan (l : list float) : fold_left Number.min2 l nan = nan.
Proof. induction l as [|v l IH]; [reflexivity|exact IH]. Qed.

Lemma Math_min_nan (l : list float) (v : float) :
  In v l -> is_nan v = true -> Number.Math_min l = nan.
Proof.
  unfold Number.Math_min. generalize infinity.
  induction l as [|a l IH]; intros acc I N; [contradiction|]. simpl.
  destruct I as [->|I]; [|now apply IH].
  unfold Number.min2. rewrite N, orb_true_r. apply fold_min2_nan.
Qed.

Lemma finalPosition_None (s : State) :
  NoDup (Obj.keys (bubbles s)) ->
  finalPosition s = None
  <-> landing_candidates s = []
      \/ exists k, In k (landing_candidates s) /\ is_nan (landing_distance s k) = true.
Proof.
  intros U. split.
  - intros E.
    destruct (landing_candidates s) as [|k0 ks] eqn:C; [now left|]. right.
    destruct (forallb (fun k => negb (is_nan (landing_distance s k))) (k0 :: ks)) eqn:F.
    + exfalso. destruct (finalPosition_exists s U) as [fp X].
      * rewrite C. discriminate.
      * rewrite C. apply Forall_forall. intros v I. apply in_map_iff in I.
        destruct I as [k [<- I]]. rewrite forallb_forall in F.
        apply F in I. now apply negb_true_iff in I.
      * congruence.
    + assert (exists k, In k (k0 :: ks) /\ is_nan (landing_distance s k) = true) as X.
      { clear - F. induction (k0 :: ks) as [|k l IH]; [discriminate|].
        simpl in F. apply andb_false_iff in F. destruct F as [F|F].
        - exists k. split; [now left|]. now apply negb_false_iff in F.
        - destruct (IH F) as (k' & I & N). exists k'. split; [now right|exact N]. }
      exact X.
  - intros H. rewrite finalPosition_find by exact U.
    destruct (find _ (bubbles s)) as [e|] eqn:F; [exfalso|reflexivity].
    apply find_some in F. destruct F as [I P].
    apply andb_true_iff in P. destruct P as [P D].
    destruct H as [H|(k & Ik & N)].
    + assert (In (fst e) (landing_candidates s)) as X.
      { rewrite landing_candidates_filter by exact U.
        apply in_map, filter_In. now split. }
      rewrite H in X. exact X.
    + rewrite (Math_min_nan (map (landing_distance s) (landing_candidates s))
                            (landing_distance s k)) in D.
      * rewrite eqb_nan_r in D. discriminate.
      * now apply in_map.
      * exact N.
Qed.

(** X2 (landBullet, lines 137-157; [Bullet.land]).  On a grid with unique
    keys the landing throws (the [TypeError] of [key2Coord(undefined)])
    exactly when no Empty cell is around the wanted position, or when the
    distance of a candidate is [NaN]; it then throws before any field is
    assigned.  In every other case a landing cell is found. *)
Theorem landBullet_throws_iff (fuel : nat) (s : State) :
  unique_keys (bubbles s) = true ->
  (landBullet fuel s = Throws
   <-> landing_candidates s = []
       \/ exists k, In k (landing_candidates s) /\ is_nan (landing_distance s k) = true)
  /\ (landBullet fuel s = Throws <-> finalPosition s = None)
  /\ (landBullet fuel s <> Throws <-> exists fp s2, placeBullet s = Some (fp, s2)).
Proof.
  intros U. apply unique_keys_NoDup in U.
  assert (landBullet fuel s = Throws <-> finalPosition s = None) as T.
  { unfold landBullet, placeBullet. destruct (finalPosition s) as [fp|].
    - destruct (explode _ _ _); split; discriminate.
    - tauto. }
  split; [|split; [exact T|]].
  - rewrite T. now apply finalPosition_None.
  - rewrite T. unfold placeBullet. destruct (finalPosition s) as [fp|]; split.
    + intros _. eexists. eexists. reflexivity.
    + discriminate.
    + intros H. now contradiction H.
    + intros (fp & s2 & H). discriminate.
Qed.

(** ** After a landing has thrown *)

Lemma finalPosition_ext (a b : State) :
  bubbles a = bubbles b ->
  wantedLandingPosition a = wantedLandingPosition b ->
  finalPosition a = finalPosition b.
Proof.
  intros G W. unfold finalPosition, landing_distances. now rewrite G, W.
Qed.

Lemma blocked_fireBullet (fuel : nat) (s : State) :
  blocked s -> fireBullet (S fuel) s = Throws.
Proof.
  intros (w & C & F). unfold fireBullet. rewrite flight_unfold.
  unfold bulletIsAboutToCollide. rewrite C. cbn [fst snd].
  unfold landBullet, placeBullet. now rewrite F.
Qed.

Lemma blocked_set_gun (v : Vec2D.t) (s : State) : blocked s -> blocked (set_gun v s).
Proof.
  intros (w & C & F). exists w. split; [exact C|].
  rewrite <- F. now apply finalPosition_ext.
Qed.

Lemma blocked_play (fuel : nat) (inputs : list Input) :
  forall s, blocked s -> In MouseDown inputs -> play (S fuel) inputs s = Throws.
Proof.
  induction inputs as [|i inputs IH]; intros s B I; [contradiction|].
  cbn [play]. destruct i as [offset| |d]; cbn [handle].
  - apply IH; [now apply blocked_set_gun|]. destruct I as [I|I]; [discriminate|exact I].
  - now rewrite blocked_fireBullet.
  - apply IH; [now apply blocked_set_gun|]. destruct I as [I|I]; [discriminate|exact I].
Qed.

(** X3 (fireBullet, lines 240-260; landBullet, lines 137-157;
    bulletIsAboutToCollide, lines 278-289).  A shot whose landing throws
    leaves the game in the state [s1] the flight had reached: the bullet in
    the air next to the bubble it touched, the grid and the score as before
    the shot, no new round.  From that state every later shot, whatever the
    aim, finds the same collision on its first test and throws again: no
    shot ever returns. *)
Theorem throw_blocks_the_game (fuel : nat) (s : State) :
  fireBullet fuel s = Throws ->
  exists s1,
    flight fuel (aim s) s = Some (AboutToCollide, s1)
    /\ landBullet fuel s1 = Throws
    /\ bubbles s1 = bubbles s /\ score s1 = score s
    /\ sampled s1 = sampled s /\ scoreWrites s1 = scoreWrites s
    /\ (forall fuel' v, fireBullet (S fuel') (set_gun v s1) = Throws)
    /\ (forall fuel' inputs, In MouseDown inputs -> play (S fuel') inputs s1 = Throws).
Proof.
  unfold fireBullet. intros H.
  destruct (flight fuel (aim s) s) as [[[] s1]|] eqn:F; try discriminate.
  exists s1. split; [reflexivity|]. split; [exact H|].
  apply flight_exit in F. destruct F as (s0 & (_ & G & _ & Sc & _ & Sa & Wr) & C & ->).
  unfold bulletIsAboutToCollide in *.
  destruct (first_collision (bullet s0) (Obj.entries (bubbles s0))) as [w|] eqn:X;
    [|discriminate].
  cbn [fst snd] in *.
  assert (blocked (set_wantedLandingPosition w s0)) as B.
  { exists w. split; [exact X|]. unfold landBullet, placeBullet in H.
    destruct (finalPosition (set_wantedLandingPosition w s0)) as [fp|] eqn:Y.
    - destruct (explode _ _ _); discriminate.
    - rewrite <- Y. now apply finalPosition_ext. }
  repeat split; auto.
  - intros fuel' v. now apply blocked_fireBullet, blocked_set_gun.
  - intros fuel' inputs. now apply blocked_play.
Qed.

(** ** explode, once more *)

Lemma explode_nothing_around (fuel : nat) (s : State) (coord : Vec2D.t) :
  getSurroundingBubbles (bubbles s) coord (Some (bulletColor s)) = [] ->
  explode (S fuel) s coord = Some s.
Proof. intros E. cbn [explode]. now rewrite E. Qed.

(** X4 (explode, lines 211-231).  On a grid with unique keys, once
    [explode(coord)] has returned nothing of the bullet's colour is left
    around [coord] nor around any cell it cleared: exploding again at
    [coord], or at a cleared cell, changes neither the grid nor the score. *)
Theorem explode_idempotent (fuel fuel' : nat) (s s' : State) (coord : Vec2D.t) :
  unique_keys (bubbles s) = true ->
  explode fuel s coord = Some s' ->
  explode (S fuel') s' coord = Some s'
  /\ forall k,
      Obj.get (bubbles s) k = Some (Some (bulletColor s)) ->
      Obj.get (bubbles s') k = Some None ->
      explode (S fuel') s' (key2Coord k) = Some s'.
Proof.
  intros U E. pose proof U as U0. apply unique_keys_NoDup in U.
  apply explode_sound in E; [|exact U].
  destruct E as (F & K & M & T & L & _).
  assert (bulletColor s' = bulletColor s) as C by apply F.
  assert (unique_keys (bubbles s') = true) as U'
      by (apply unique_keys_NoDup; rewrite K; exact U).
  assert (forall m, Obj.get (bubbles s') m = Some (Some (bulletColor s)) ->
                    Obj.get (bubbles s) m = Some (Some (bulletColor s))) as Keep.
  { intros m H. destruct (M m) as [X|(_ & X & _)]; congruence. }
  split.
  - apply explode_nothing_around. rewrite C.
    apply no_neighbour_of_colour; [exact U'|]. intros m S H.
    pose proof (T m S (Keep m H)). congruence.
  - intros k Hk Hk'. apply explode_nothing_around. rewrite C.
    apply no_neighbour_of_colour; [exact U'|]. intros m S H.
    pose proof (L k m Hk Hk' S (Keep m H)). congruence.
Qed.

(** ** Every shot that returns has started a new round *)

Lemma newRound_resets (s : State) :
  bullet (newRound s) = createBullet /\ time (newRound s) = 0
  /\ bulletColor (newRound s) = sample (sampled s)
  /\ sampled (newRound s) = S (sampled s).
Proof. unfold newRound. simpl. destruct (every_null (bubbles s)); simpl; auto. Qed.

Lemma fireBullet_round (fuel : nat) (s s' : State) :
  NoDup (Obj.keys (bubbles s)) ->
  fireBullet fuel s = Returns s' ->
  bullet s' = createBullet /\ time s' = 0 /\ gun s' = gun s
  /\ bulletColor s' = sample (sampled s) /\ sampled s' = S (sampled s).
Proof.
  intros U H. apply fireBullet_steps in H.
  destruct H as (s0 & (Gu & G & _ & _ & _ & Sa & _) & [[_ ->]|[_ [w H]]]).
  - unfold penalise.
    destruct (newRound_resets (updateScore (set_score (score s0 - 10) s0)))
      as (-> & -> & -> & ->).
    destruct (newRound_keeps (updateScore (set_score (score s0 - 10) s0)))
      as (_ & _ & -> & _).
    simpl. rewrite Gu, Sa. auto.
  - apply landBullet_steps in H; [|simpl; now rewrite G].
    destruct H as (fp & s2 & s3 & l1 & l2 & _ & _ & _ & S2 & _ & X & ->).
    destruct X as ((Gu3 & _ & _ & _ & _ & Sa3) & _).
    destruct (newRound_resets s3) as (-> & -> & -> & ->).
    destruct (newRound_keeps s3) as (_ & _ & -> & _).
    rewrite Gu3, Sa3, S2. simpl. rewrite Gu, Sa. auto.
Qed.

Lemma play_round (fuel : nat) (inputs : list Input) :
  forall s s',
    NoDup (Obj.keys (bubbles s)) ->
    play fuel inputs s = Returns s' ->
    sampled s' = (sampled s + count_shots inputs)%nat
    /\ (bullet s = createBullet -> time s = 0 ->
        bullet s' = createBullet /\ time s' = 0).
Proof.
  induction inputs as [|i inputs IH]; intros s s' U H; cbn [play] in H.
  - injection H as <-. cbn [count_shots]. split; [lia|auto].
  - destruct (handle fuel i s) as [s1| |] eqn:E; try discriminate.
    pose proof (handle_keys _ _ _ _ U E) as K.
    destruct (IH s1 s' ltac:(now rewrite K) H) as [Sa R].
    destruct i as [offset| |d]; cbn [handle] in E; cbn [count_shots].
    + injection E as <-. cbn [set_gun sampled bullet time] in *. auto.
    + destruct (fireBullet_round _ _ _ U E) as (B1 & T1 & _ & _ & S1).
      split; [rewrite Sa, S1; lia|]. intros _ _. auto.
    + injection E as <-. cbn [rotateGun set_gun sampled bullet time] in *. auto.
Qed.

(** X5 (newRound, lines 267-271; fireBullet, lines 245-249 and 260;
    landBullet, line 162).  On a grid with unique keys, a shot that returns,
    lost or landed, has put the bullet back at the origin, reset the flight
    time to 0 and drawn exactly one new colour, and it has left the gun where
    it pointed.  So a game that starts at the beginning of a round is at the
    beginning of a round after any inputs, and [_.sample] has been called
    once per shot. *)
Theorem shot_starts_new_round (fuel : nat) (s : State) :
  unique_keys (bubbles s) = true ->
  (forall s',
      fireBullet fuel s = Returns s' ->
      bullet s' = createBullet /\ time s' = 0 /\ gun s' = gun s
      /\ bulletColor s' = sample (sampled s) /\ sampled s' = S (sampled s))
  /\ (forall inputs s',
         play fuel inputs s = Returns s' ->
         sampled s' = (sampled s + count_shots inputs)%nat
         /\ (bullet s = createBullet -> time s = 0 ->
             bullet s' = createBullet /\ time s' = 0)).
Proof.
  intros U. apply unique_keys_NoDup in U. split.
  - intros s'. now apply fireBullet_round.
  - intros inputs s'. now apply play_round.
Qed.

(** ** Shots on a grid without bubble: the game stays won *)

Lemma fireBullet_free (fuel : nat) (s : State) :
  every_null (bubbles s) = true ->
  fireBullet fuel s
  = match free_flight fuel (aim s) (bullet s) (time s) with
    | Some bt => Returns (penalise (set_time (snd bt) (set_bullet (fst bt) s)))
    | None => OutOfFuel
    end.
Proof.
  intros E. unfold fireBullet. rewrite flight_free by exact E.
  now destruct (free_flight fuel (aim s) (bullet s) (time s)).
Qed.

Lemma fireBullet_won (fuel : nat) (s s' : State) :
  every_null (bubbles s) = true ->
  fireBullet fuel s = Returns s' ->
  shot_exit fuel s = Some Penalised
  /\ bubbles s' = bubbles s
  /\ score s' = (score s - 10)%Z
  /\ scoreWrites s' = YOU_WON :: SCORE (score s - 10) :: scoreWrites s.
Proof.
  intros E H. unfold shot_exit. rewrite flight_free by exact E.
  rewrite fireBullet_free in H by exact E.
  destruct (free_flight fuel (aim s) (bullet s) (time s)) as [[b t]|]; [|discriminate].
  injection H as <-. cbn [option_map fst snd].
  unfold penalise, newRound. simpl. rewrite E. simpl. auto.
Qed.

(** X6 (fireBullet, lines 240-250; newRound, lines 267-276; declareWin, lines
    263-265).  On a grid without Colored cell no shot lands or throws: a shot
    that returns left the play area, cost 10 points and left the grid as it
    was, and the last text written to the score element is the win text, over
    the score written just before it.  So once the game is won it stays won:
    after any inputs the grid is the same and each shot has cost 10. *)
Theorem won_game_stays_won (fuel : nat) (s : State) :
  every_null (bubbles s) = true ->
  fireBullet fuel s <> Throws
  /\ (forall s',
         fireBullet fuel s = Returns s' ->
         shot_exit fuel s = Some Penalised
         /\ bubbles s' = bubbles s
         /\ score s' = (score s - 10)%Z
         /\ scoreWrites s' = YOU_WON :: SCORE (score s - 10) :: scoreWrites s)
  /\ (forall inputs s',
         play fuel inputs s = Returns s' ->
         bubbles s' = bubbles s
         /\ score s' = (score s - 10 * Z.of_nat (count_shots inputs))%Z).
Proof.
  intros E. split; [|split].
  - rewrite fireBullet_free by exact E.
    now destruct (free_flight fuel (aim s) (bullet s) (time s)).
  - intros s'. now apply fireBullet_won.
  - intros inputs. revert s E.
    induction inputs as [|i inputs IH]; intros s E s' H; cbn [play] in H.
    + injection H as <-. cbn [count_shots]. split; [reflexivity|lia].
    + destruct (handle fuel i s) as [s1| |] eqn:X; try discriminate.
      destruct i as [offset| |d]; cbn [handle] in X; cbn [count_shots].
      * injection X as <-. exact (IH (set_gun (canvas2Math offset) s) E _ H).
      * destruct (fireBullet_won _ _ _ E X) as (_ & G & Sc & _).
        destruct (IH s1 ltac:(now rewrite G) s' H) as [G' Sc'].
        split; [congruence|]. rewrite Sc', Sc. lia.
      * injection X as <-. exact (IH (rotateGun d s) E _ H).
Qed.

(** ** The constructor, and a game played from it *)

Lemma dense_grid_count (n : nat) :
  colored_count (dense_grid n) = 200%nat /\ every_null (dense_grid n) = false.
Proof. split; vm_compute; reflexivity. Qed.

Lemma BubbleShooter_new_fields (n : nat) (writes : list ScoreText) :
  BubbleShooter_new n writes
  = mkState createGun (dense_grid n) createBullet (sample (200 + n)) 0 0%Z
            (Vec2D.mk 0 0) (S (200 + n)) writes.
Proof. unfold BubbleShooter_new. now rewrite createBubbleGrid_dense_grid. Qed.

(** What any inputs leave of a game that is at the beginning of a round on a
    grid with the created keys. *)
Lemma play_from_round_start (fuel : nat) (inputs : list Input) (s s' : State) :
  on_lattice (bubbles s) ->
  bullet s = createBullet -> time s = 0 ->
  play fuel inputs s = Returns s' ->
  on_lattice (bubbles s')
  /\ bullet s' = createBullet /\ time s' = 0
  /\ sampled s' = (sampled s + count_shots inputs)%nat
  /\ (score s' + 10 * Z.of_nat (colored_count (bubbles s'))
      = score s + 10 * Z.of_nat (colored_count (bubbles s) + fst (tally fuel inputs s))
        - 10 * Z.of_nat (snd (tally fuel inputs s)))%Z.
Proof.
  intros L B T H.
  assert (NoDup (Obj.keys (bubbles s))) as U
      by (apply unique_keys_NoDup, lattice_well_formed, L).
  destruct (play_round _ _ _ _ U H) as [Sa R].
  destruct (R B T) as [B' T'].
  split; [eapply play_on_lattice; eassumption|].
  split; [exact B'|]. split; [exact T'|]. split; [exact Sa|].
  now apply play_score.
Qed.

(** X7 (the constructor, lines 90-110; createGun, createBullet, lines
    327-333).  A new game has 200 bubbles and is not won; the gun points up,
    the bullet is at the origin with the 201st colour sampled, the time and
    the score are 0, and nothing has been written to the score element.
    After any inputs played from it the grid has the created keys, the game
    is at the beginning of a round, and the score is 10 for each bubble
    cleared (the 200, plus one per landed shot, minus those left) minus 10
    for each lost shot. *)
Theorem new_game (n : nat) (writes : list ScoreText) :
  colored_count (bubbles (BubbleShooter_new n writes)) = 200%nat
  /\ every_null (bubbles (BubbleShooter_new n writes)) = false
  /\ gun (BubbleShooter_new n writes) = createGun
  /\ bullet (BubbleShooter_new n writes) = createBullet
  /\ bulletColor (BubbleShooter_new n writes) = sample (200 + n)
  /\ sampled (BubbleShooter_new n writes) = (201 + n)%nat
  /\ time (BubbleShooter_new n writes) = 0
  /\ score (BubbleShooter_new n writes) = 0%Z
  /\ scoreWrites (BubbleShooter_new n writes) = writes
  /\ forall fuel inputs s',
      play fuel inputs (BubbleShooter_new n writes) = Returns s' ->
      on_lattice (bubbles s')
      /\ bullet s' = createBullet /\ time s' = 0
      /\ sampled s' = (201 + n + count_shots inputs)%nat
      /\ (score s' + 10 * Z.of_nat (colored_count (bubbles s'))
          = 10 * Z.of_nat (200 + fst (tally fuel inputs (BubbleShooter_new n writes)))
            - 10 * Z.of_nat (snd (tally fuel inputs (BubbleShooter_new n writes))))%Z.
Proof.
  pose proof (new_game_on_lattice n writes) as L.
  destruct (dense_grid_count n) as [C E].
  revert L. rewrite BubbleShooter_new_fields.
  generalize (dense_grid n) C E. clear C E. intros g C E L.
  cbn [bubbles gun bullet bulletColor sampled time score scoreWrites] in *.
  split; [exact C|]. split; [exact E|].
  do 7 (split; [reflexivity|]).
  intros fuel inputs s' H.
  match type of H with
  | play _ _ ?s0 = _ =>
      destruct (play_from_round_start fuel inputs s0 s' L eq_refl eq_refl H)
        as (L' & B & T & Sa & Sc)
  end.
  cbn [bubbles sampled score] in Sa, Sc. rewrite C in Sc.
  split; [exact L'|]. split; [exact B|]. split; [exact T|]. split; [exact Sa|].
  rewrite Sc. lia.
Qed.

(** ** drawBubbles *)

Lemma drawBubbles_arc (s : State) (x y r a0 a1 : float) :
  In (arc x y r a0 a1) (drawBubbles s)
  <-> exists k c,
      In (k, Some c) (bubbles s)
      /\ x = Vec2D.x (bubble_centre k) /\ y = Vec2D.y (bubble_centre k)
      /\ r = RADIUS * SCALE /\ a0 = 0 /\ a1 = 2 * Math_PI.
Proof.
  unfold drawBubbles, Obj.entries. rewrite in_flat_map. split.
  - intros ([k [c|]] & I & H); [|contradiction].
    exists k, c. split; [exact I|].
    cbn [drawBubble fst snd] in H.
    destruct H as [H|[H|[H|[H|[H|[]]]]]]; try discriminate.
    injection H as <- <- <- <- <-. repeat split.
  - intros (k & c & I & -> & -> & -> & -> & ->).
    exists (k, Some c). split; [exact I|]. right. now left.
Qed.

Lemma lattice_circles_inside :
  forallb (fun k => inside_canvas (Vec2D.x (bubble_centre k)) (Vec2D.y (bubble_centre k))
                                  (RADIUS * SCALE))
          lattice_keys = true.
Proof. vm_compute. reflexivity. Qed.

(** X8 (drawBubbles, lines 339-356; math2Canvas, lines 386-391; the canvas
    size, lines 9-10).  [drawBubbles] draws one full circle of radius 10 for
    each Colored cell, filled with the colour of the cell, in the order of the
    grid, and nothing for an Empty cell: nothing at all once the game is won.
    On a grid with the created keys every circle lies within the 810 x 600
    canvas. *)
Theorem drawBubbles_circles (s : State) :
  List.length (filter is_arc (drawBubbles s)) = colored_count (bubbles s)
  /\ fill_colors (drawBubbles s) = bubble_colors (bubbles s)
  /\ (every_null (bubbles s) = true <-> drawBubbles s = [])
  /\ (forall x y r a0 a1,
         In (arc x y r a0 a1) (drawBubbles s)
         <-> exists k c,
             In (k, Some c) (bubbles s)
             /\ x = Vec2D.x (bubble_centre k) /\ y = Vec2D.y (bubble_centre k)
             /\ r = RADIUS * SCALE /\ a0 = 0 /\ a1 = 2 * Math_PI)
  /\ (on_lattice (bubbles s) ->
      forall x y r a0 a1,
        In (arc x y r a0 a1) (drawBubbles s) -> inside_canvas x y r = true).
Proof.
  split; [|split; [|split; [|split]]].
  - unfold drawBubbles, colored_count, Obj.entries, Obj.values.
    induction (bubbles s) as [|[k [c|]] g IH]; simpl; auto.
  - unfold drawBubbles, bubble_colors, fill_colors, Obj.entries, Obj.values.
    induction (bubbles s) as [|[k [c|]] g IH]; simpl; auto. now rewrite IH.
  - unfold drawBubbles, every_null, Obj.entries, Obj.values.
    induction (bubbles s) as [|[k [c|]] g IH]; simpl.
    + tauto.
    + split; discriminate.
    + exact IH.
  - apply drawBubbles_arc.
  - intros L x y r a0 a1 I. apply drawBubbles_arc in I.
    destruct I as (k & c & I & -> & -> & -> & _).
    pose proof lattice_circles_inside as X. rewrite forallb_forall in X.
    apply X. rewrite <- L. apply in_map_iff. now exists (k, Some c).
Qed.

(** ** math2Canvas and canvas2Math *)

Lemma lattice_pixels :
  forallb
    (fun row =>
       forallb
         (fun col =>
            Key_eqb (math2Canvas (cell_position row col))
                    (Vec2D.mk
                       (Number.of_count (20 * col + (if Nat.odd row then 10 else 0)))
                       (Number.of_count (20 * row)))
            && Key_eqb (canvas2Math (math2Canvas (cell_position row col)))
                       (cell_position row col))
         (seq 0 PLAYGROUND_WIDTH))
    (seq 0 PLAYGROUND_HEIGHT) = true.
Proof. vm_compute. reflexivity. Qed.

(** X9 (math2Canvas, lines 386-391; canvas2Math, lines 393-399).  The cell of
    row [r] and column [c] of the created grid is mapped to the pixel
    [(20 c + (r odd ? 10 : 0), 20 r)], and [canvas2Math] maps that pixel back
    to the cell, exactly.  Off the lattice the two conversions are not
    inverse of each other: the vector [(0.1, 0.1)] and the pixel [(1, 1)] do
    not come back. *)
Theorem canvas_round_trip :
  (forall row col,
      (row < PLAYGROUND_HEIGHT)%nat -> (col < PLAYGROUND_WIDTH)%nat ->
      math2Canvas (cell_position row col)
      = Vec2D.mk (Number.of_count (20 * col + (if Nat.odd row then 10 else 0)))
                 (Number.of_count (20 * row))
      /\ canvas2Math (math2Canvas (cell_position row col)) = cell_position row col)
  /\ (forall k, In k lattice_keys -> canvas2Math (math2Canvas k) = k)
  /\ canvas2Math (math2Canvas (Vec2D.mk 0.1 0.1)) <> Vec2D.mk 0.1 0.1
  /\ math2Canvas (canvas2Math (Vec2D.mk 1 1)) <> Vec2D.mk 1 1.
Proof.
  assert (forall row col,
             (row < PLAYGROUND_HEIGHT)%nat -> (col < PLAYGROUND_WIDTH)%nat ->
             math2Canvas (cell_position row col)
             = Vec2D.mk (Number.of_count (20 * col + (if Nat.odd row then 10 else 0)))
                        (Number.of_count (20 * row))
             /\ canvas2Math (math2Canvas (cell_position row col)) = cell_position row col)
    as X.
  { intros row col R C. pose proof lattice_pixels as X.
    rewrite forallb_forall in X. specialize (X row).
    rewrite forallb_forall in X. specialize (X ltac:(apply in_seq; lia) col).
    rewrite andb_true_iff, !Key_eqb_eq in X. apply X, in_seq. lia. }
  split; [exact X|]. split; [|split].
  - intros k I. unfold lattice_keys in I. apply in_flat_map in I.
    destruct I as (row & R & I). apply in_map_iff in I. destruct I as (col & <- & C).
    apply in_seq in R. apply in_seq in C. apply X; lia.
  - intros H. apply (f_equal Vec2D.x) in H. vm_compute in H.
    apply (f_equal Prim2SF) in H. vm_compute in H. discriminate.
  - intros H. apply (f_equal Vec2D.x) in H. vm_compute in H.
    apply (f_equal Prim2SF) in H. vm_compute in H. discriminate.
Qed.

(** ** Vec2D: the zero vector *)

Lemma float_add_comm (a b : float) : a + b = b + a.
Proof.
  apply Prim2SF_inj. rewrite !add_spec. unfold SF64add.
  destruct (Prim2SF a) as [[]|[]| |sa ma ea], (Prim2SF b) as [[]|[]| |sb mb eb];
    try reflexivity.
  unfold SFadd. now rewrite Z.min_comm, Z.add_comm.
Qed.

Lemma float_sub_0 (a : float) : a - 0 = a.
Proof.
  apply Prim2SF_inj. rewrite sub_spec. unfold SF64sub.
  change (Prim2SF 0) with (S754_zero false).
  now destruct (Prim2SF a) as [[]|[]| |sa ma ea].
Qed.

Lemma float_0_add (a : float) : 0 + a = Number.unsigned_zero a.
Proof.
  unfold Number.unsigned_zero.
  assert ((a =? 0) = SFeqb (Prim2SF a) (S754_zero false)) as E by apply eqb_spec.
  assert (Prim2SF (0 + a) = SFadd prec emax (S754_zero false) (Prim2SF a)) as A
      by apply add_spec.
  apply Prim2SF_inj.
  destruct (Prim2SF a) as [s|s| |s m e] eqn:P; cbn [SFadd] in A;
    rewrite A; unfold SFeqb in E; cbn [SFcompare] in E; rewrite E;
    try destruct s; rewrite ?P; reflexivity.
Qed.

(** X10 (class Vec2D, lines 53-59; their use in fireBullet, lines 235-252).
    Adding vectors is commutative; subtracting the zero vector changes
    nothing, and adding a vector to the zero vector only erases the sign of
    its zero coordinates, as printing it in a key does.  So the direction of
    a shot is the gun vector divided by its length, and the bullet of a
    flight is at the direction times the time. *)
Theorem Vec2D_zero_vector (v w : Vec2D.t) :
  Vec2D.add v w = Vec2D.add w v
  /\ Vec2D.sub v gunOrigin = v
  /\ Vec2D.add gunOrigin v = coord2Index v
  /\ (forall s, aim s = Vec2D.scalarDiv (gun s) (length (gun s)))
  /\ (forall s directionVector,
         bullet (advance directionVector s)
         = coord2Index (Vec2D.scalarMul directionVector (time s))).
Proof.
  assert (forall u, Vec2D.sub u gunOrigin = u) as S0.
  { intros [x y]. unfold Vec2D.sub, gunOrigin. cbn [Vec2D.x Vec2D.y].
    now rewrite !float_sub_0. }
  assert (forall u, Vec2D.add gunOrigin u = coord2Index u) as A0.
  { intros [x y]. unfold Vec2D.add, gunOrigin, coord2Index. cbn [Vec2D.x Vec2D.y].
    now rewrite !float_0_add. }
  repeat split.
  - unfold Vec2D.add. now rewrite (float_add_comm (Vec2D.x v)), (float_add_comm (Vec2D.y v)).
  - apply S0.
  - apply A0.
  - intros s. unfold aim. now rewrite S0.
  - intros s d. unfold advance. cbn [bullet set_time set_bullet]. apply A0.
Qed.

(** ** rotate: left and right are mirror images *)

Lemma binary_round_aux_opp (s : bool) (m e : Z) (l : location) :
  binary_round_aux prec emax (negb s) m e l = SFopp (binary_round_aux prec emax s m e l).
Proof.
  unfold binary_round_aux.
  destruct (shr_fexp prec emax m e l) as [mrs' e'].
  destruct (shr_fexp prec emax _ e' loc_Exact) as [mrs'' e''].
  destruct (shr_m mrs''); [reflexivity| |reflexivity].
  now destruct (Z.leb e'' (emax - prec)).
Qed.

Lemma SFmul_opp_l (x y : spec_float) :
  SFmul prec emax (SFopp x) y = SFopp (SFmul prec emax x y).
Proof.
  destruct x as [sx|sx| |sx mx ex], y as [sy|sy| |sy my ey]; cbn [SFmul SFopp];
    rewrite <- ?negb_xorb_l; try reflexivity.
  apply binary_round_aux_opp.
Qed.

Lemma SFmul_opp_r (x y : spec_float) :
  SFmul prec emax x (SFopp y) = SFopp (SFmul prec emax x y).
Proof.
  destruct x as [sx|sx| |sx mx ex], y as [sy|sy| |sy my ey]; cbn [SFmul SFopp];
    rewrite <- ?negb_xorb_r; try reflexivity.
  apply binary_round_aux_opp.
Qed.

Lemma float_mul_opp_l (a b : float) : (- a) * b = - (a * b).
Proof.
  apply Prim2SF_inj. rewrite mul_spec, !opp_spec, mul_spec. apply SFmul_opp_l.
Qed.

Lemma float_mul_opp_r (a b : float) : a * (- b) = - (a * b).
Proof.
  apply Prim2SF_inj. rewrite mul_spec, !opp_spec, mul_spec. apply SFmul_opp_r.
Qed.

Lemma float_opp_opp (a : float) : - - a = a.
Proof.
  apply Prim2SF_inj. rewrite !opp_spec.
  destruct (Prim2SF a) as [s|s| |s m e]; cbn [SFopp]; now rewrite ?negb_involutive.
Qed.

Lemma binary_normalize_opp (m e : Z) :
  m <> 0%Z ->
  binary_normalize prec emax (- m) e false = SFopp (binary_normalize prec emax m e false).
Proof.
  intros H. destruct m as [|p|p]; [contradiction| |]; cbn [Z.opp binary_normalize];
    unfold binary_round;
    destruct (shl_align p e _) as [mz ez].
  - apply (binary_round_aux_opp false).
  - rewrite (binary_round_aux_opp false). 
    destruct (binary_round_aux prec emax false (Z.pos mz) ez loc_Exact) as [s|s| |s m' e']; cbn [SFopp]; now rewrite ?negb_involutive.
Qed.

Lemma cond_Zopp_negb (s : bool) (m : Z) : cond_Zopp (negb s) m = (- cond_Zopp s m)%Z.
Proof. destruct s; simpl; lia. Qed.

Lemma SFadd_opp (x y : spec_float) :
  SFadd prec emax (SFopp x) (SFopp y) = SFopp (SFadd prec emax x y)
  \/ exists s1 s2,
      SFadd prec emax (SFopp x) (SFopp y) = S754_zero s1
      /\ SFadd prec emax x y = S754_zero s2.
Proof.
  destruct x as [sx|sx| |sx mx ex], y as [sy|sy| |sy my ey]; cbn [SFadd SFopp];
    try (left; reflexivity);
    try (destruct sx, sy; cbn [negb SFopp]; (left; reflexivity) || (right; eexists; eexists; split; reflexivity)).
  rewrite !cond_Zopp_negb, <- Z.opp_add_distr.
  set (M := (cond_Zopp sx _ + cond_Zopp sy _)%Z).
  destruct (Z.eq_dec M 0) as [E|N].
  - right. rewrite E. exists false, false. split; reflexivity.
  - left. now apply binary_normalize_opp.
Qed.

Lemma float_add_opp (a b : float) :
  - a + - b = - (a + b)
  \/ ((- a + - b =? 0) = true /\ (a + b =? 0) = true).
Proof.
  destruct (SFadd_opp (Prim2SF a) (Prim2SF b)) as [H|(s1 & s2 & H1 & H2)].
  - left. apply Prim2SF_inj. rewrite add_spec, !opp_spec, add_spec. exact H.
  - right. rewrite !eqb_spec, !add_spec, !opp_spec. unfold SF64add. rewrite H1, H2.
    change (Prim2SF 0) with (S754_zero false). split; reflexivity.
Qed.

(** X11 (rotate and matrixVectorMul, lines 410-434; the two matrices, lines
    30-38; rotateGun, lines 112-114).  With the matrices as the program
    builds them, from one cosine [c] and one sine [s], turning right the
    mirror image of a vector gives the mirror image of the vector turned
    left, and the other way round: the second coordinates are the same
    number, the first ones are opposite (or both zero, whose sign may
    differ). *)
Theorem rotate_mirror (c s : float) (v : Vec2D.t) :
  MATRIX_ROTATE_COUNTERCLOCKWISE = ((c, s), (- s, c)) ->
  MATRIX_ROTATE_CLOCKWISE = ((c, - s), (s, c)) ->
  (Vec2D.y (rotate (mirror v) Right) = Vec2D.y (rotate v Left)
   /\ (Vec2D.x (rotate (mirror v) Right) = - Vec2D.x (rotate v Left)
       \/ ((Vec2D.x (rotate (mirror v) Right) =? 0) = true
           /\ (Vec2D.x (rotate v Left) =? 0) = true)))
  /\ (Vec2D.y (rotate (mirror v) Left) = Vec2D.y (rotate v Right)
      /\ (Vec2D.x (rotate (mirror v) Left) = - Vec2D.x (rotate v Right)
          \/ ((Vec2D.x (rotate (mirror v) Left) =? 0) = true
              /\ (Vec2D.x (rotate v Right) =? 0) = true))).
Proof.
  intros HL HR. destruct v as [x y].
  unfold rotate, matrixVectorMul, mirror. rewrite HL, HR.
  cbn [fst snd Vec2D.x Vec2D.y]. split; split.
  - now rewrite float_mul_opp_l, float_mul_opp_r, float_opp_opp.
  - rewrite float_mul_opp_r.
    rewrite <- (float_opp_opp (s * y)), <- (float_mul_opp_l s y).
    apply float_add_opp.
  - now rewrite float_mul_opp_l, float_mul_opp_r.
  - rewrite float_mul_opp_r, float_mul_opp_l. apply float_add_opp.
Qed.

(** ** The bounds of the playground *)

Lemma ltb_nan_l (a : float) : (nan <? a) = false.
Proof. rewrite ltb_spec. change (Prim2SF nan) with S754_nan. reflexivity. Qed.

Lemma ltb_nan_r (a : float) : (a <? nan) = false.
Proof.
  rewrite ltb_spec. change (Prim2SF nan) with S754_nan.
  now destruct (Prim2SF a) as [[]|[]| |[] m e].
Qed.

Lemma leb_not_ltb (a b : float) : (b <=? a) = true -> (a <? b) = false.
Proof.
  rewrite leb_le, <- not_true_iff_false, ltb_Lt. unfold SFle.
  rewrite (SFcompare_swap (Prim2SF b) (Prim2SF a)).
  destruct (SFcompare (Prim2SF b) (Prim2SF a)) as [[]|]; simpl;
    intros [H|H] X; discriminate.
Qed.

Lemma ltb_false_iff (a b : float) :
  (a <? b) = false
  <-> is_nan a = true \/ is_nan b = true \/ (b <=? a) = true.
Proof.
  split.
  - intros H. destruct (is_nan a) eqn:A; [now left|].
    destruct (is_nan b) eqn:B; [right; now left|].
    right. right. now apply not_ltb_leb.
  - intros [H|[H|H]].
    + apply is_nan_true in H. rewrite H. apply ltb_nan_l.
    + apply is_nan_true in H. rewrite H. apply ltb_nan_r.
    + now apply leb_not_ltb.
Qed.

(** X13 (the bounds test of fireBullet, lines 241-244; [Bullet.shoot]).  The
    test lets the flight go on exactly when each coordinate of the bullet is
    within the closed band, [-21 <= x <= 21] and [0 <= y <= 30], or is not a
    number: a bullet on the border is still inside, and so is a bullet whose
    coordinates are [NaN]. *)
Theorem out_of_playground_spec (b : Vec2D.t) :
  out_of_playground b = false
  <-> (is_nan (Vec2D.x b) = true
       \/ ((-21 <=? Vec2D.x b) = true /\ (Vec2D.x b <=? 21) = true))
      /\ (is_nan (Vec2D.y b) = true
          \/ ((0 <=? Vec2D.y b) = true /\ (Vec2D.y b <=? 30) = true)).
Proof.
  unfold out_of_playground.
  change (- (Number.of_count PLAYGROUND_WIDTH / 2 + 1)) with (-21).
  change (Number.of_count PLAYGROUND_WIDTH / 2 + 1) with 21.
  change (Number.of_count PLAYGROUND_HEIGHT) with 30.
  cbv zeta. rewrite !orb_false_iff, !ltb_false_iff.
  assert (is_nan (-21) = false) as N1 by reflexivity.
  assert (is_nan 21 = false) as N2 by reflexivity.
  assert (is_nan 0 = false) as N3 by reflexivity.
  assert (is_nan 30 = false) as N4 by reflexivity.
  rewrite N1, N2, N3, N4. clear.
  split.
  - intros [[[X|[X|X]] [Y|[Y|Y]]] [[Z|[Z|Z]] [W|[W|W]]]]; try discriminate; auto.
  - intros [[X|[X1 X2]] [Y|[Y1 Y2]]]; auto 10.
Qed.

(** ** drawBullet, drawGun and reDraw *)

Lemma lattice_bullet_offset :
  forallb (fun k => (Vec2D.x (bullet_centre k) + 10 =? Vec2D.x (bubble_centre k))
                    && (Vec2D.y (bullet_centre k) + 20 =? Vec2D.y (bubble_centre k)))
          lattice_keys = true.
Proof. vm_compute. reflexivity. Qed.

Lemma filter_arc_app (l1 l2 : list CanvasOp) :
  filter is_arc (l1 ++ l2) = filter is_arc l1 ++ filter is_arc l2.
Proof. induction l1 as [|a l1 IH]; simpl; [reflexivity|]. destruct (is_arc a); simpl; now rewrite IH. Qed.

Lemma drawBubbles_arcs (s : State) :
  List.length (filter is_arc (drawBubbles s)) = colored_count (bubbles s).
Proof.
  unfold drawBubbles, colored_count, Obj.entries, Obj.values.
  induction (bubbles s) as [|[k [c|]] g IH]; simpl; auto.
Qed.

(** X14 (drawBullet, lines 370-384; drawGun, lines 358-368; reDraw, lines
    116-121).  [reDraw] clears the whole 810 x 600 canvas and then draws one
    circle per bubble and one for the bullet.  The bullet's circle has radius
    10 and its centre 10 pixels above the image of the bullet's position: a
    bullet at the coordinates of a cell is drawn 10 pixels to the left of and
    20 pixels above the bubble of that cell.  At the beginning of a round it
    is centred at (400, 590), within the canvas, and the line of the gun
    starts at its centre. *)
Theorem bullet_and_gun_drawing (s : State) :
  (exists ops, reDraw s = clearRect 0 0 810 600 :: ops)
  /\ List.length (filter is_arc (reDraw s)) = S (colored_count (bubbles s))
  /\ (forall x y r a0 a1,
         In (arc x y r a0 a1) (drawBullet s)
         <-> x = Vec2D.x (bullet_centre (bullet s))
             /\ y = Vec2D.y (bullet_centre (bullet s))
             /\ r = 10 /\ a0 = 0 /\ a1 = 2 * Math_PI)
  /\ In (fillStyle (bulletColor s)) (drawBullet s)
  /\ (forall k, In k lattice_keys ->
                (Vec2D.x (bullet_centre k) + 10 =? Vec2D.x (bubble_centre k)) = true
                /\ (Vec2D.y (bullet_centre k) + 20 =? Vec2D.y (bubble_centre k)) = true)
  /\ (bullet s = createBullet ->
      bullet_centre (bullet s) = Vec2D.mk 400 590
      /\ inside_canvas 400 590 10 = true
      /\ In (moveTo 400 590) (drawGun s)).
Proof.
  split; [|split; [|split; [|split; [|split]]]].
  - eexists. reflexivity.
  - unfold reDraw. cbn [filter is_arc]. rewrite !filter_arc_app, !length_app.
    rewrite drawBubbles_arcs. cbn [drawGun drawBullet filter is_arc List.length]. lia.
  - intros x y r a0 a1. unfold drawBullet. cbn [In]. split.
    + intros [H|[H|[H|[H|[H|[]]]]]]; try discriminate.
      injection H as <- <- <- <- <-. repeat split.
    + intros (-> & -> & -> & -> & ->). right. right. left. reflexivity.
  - right. left. reflexivity.
  - intros k I. pose proof lattice_bullet_offset as X.
    rewrite forallb_forall in X. apply andb_true_iff. now apply X.
  - intros ->. repeat split. right. left. reflexivity.
Qed.

End Game.

(** ** The example game: runs of the model and instances of the theorems *)

(** The shot of an orange bullet straight up: it touches [(0.5, 2)], lands in
    [(-0.5, 2)] and clears the four orange bubbles, for 40 points. *)
Example orange_shot_clears_four :
  exists s',
    fireBullet Example.hypot Example.sampler 10 (Example.round Example.grid Orange)
    = Returns s'
    /\ score s' = 40%Z
    /\ colored_count (bubbles s') = 1
    /\ Obj.get (bubbles s') Example.landing_cell = Some None.
Proof. eexists. split; [vm_compute; reflexivity|]. repeat split. Qed.

(** The flight of that shot stops on the state [Example.touching]. *)
Example flight_reaches_touching (c : Color) :
  flight Example.hypot Example.sampler 10 (Vec2D.mk 0%float 1%float)
         (Example.round Example.grid c)
  = Some (AboutToCollide, Example.touching c).
Proof. destruct c; vm_compute; reflexivity. Qed.

Example placeBullet_touching (c : Color) :
  placeBullet Example.hypot (Example.touching c)
  = Some (Example.landing_cell, Example.placed c).
Proof. destruct c; vm_compute; reflexivity. Qed.

(** C1: the orange component around the landing cell is cleared. *)
Lemma explode_clears_reachable_witness :
  unique_keys (bubbles (Example.placed Orange)) = true
  /\ colored_count (bubbles (Example.placed Orange)) < 6
  /\ symmetric_neighbours (Obj.keys (bubbles (Example.placed Orange))) = true
  /\ exists s',
      explode 6 (Example.placed Orange) (key2Coord Example.landing_cell) = Some s'
      /\ Obj.get (bubbles s') (Vec2D.mk 1%float 3%float) = Some None
      /\ Obj.get (bubbles s') Example.landing_cell = Some None.
Proof.
  assert (colored_count (bubbles (Example.placed Orange)) < 6) as N
      by (vm_compute; repeat constructor).
  split; [reflexivity|]. split; [exact N|]. split; [reflexivity|].
  destruct (explode_clears_reachable 6 (Example.placed Orange) Example.landing_cell
                                     eq_refl N)
    as (s' & E & _ & C & _ & W).
  exists s'. split; [exact E|]. split.
  - apply C. apply chain_more with (m := Vec2D.mk 0%float 3%float);
      [apply chain_one| |]; reflexivity.
  - apply W; [reflexivity|reflexivity| |now left].
    exists (Vec2D.mk 0%float 3%float). split; reflexivity.
Defined.

(** C1, as stated, fails on a landing without neighbour of its colour: the
    blue bubble placed in [(-0.5, 2)] is a component of its own, and it is
    still Colored when [explode] has returned. *)
Lemma isolated_component_not_cleared :
  placeBullet Example.hypot (Example.touching Blue)
  = Some (Example.landing_cell, Example.placed Blue)
  /\ component (bubbles (Example.placed Blue)) (bulletColor (Example.placed Blue))
               Example.landing_cell Example.landing_cell
  /\ explode 6 (Example.placed Blue) (key2Coord Example.landing_cell)
     = Some (Example.placed Blue)
  /\ Obj.get (bubbles (Example.placed Blue)) Example.landing_cell = Some (Some Blue).
Proof. repeat split. now left. Qed.

(** C2: the landing of the example. *)
Lemma landing_takes_nearest_empty_neighbour_witness :
  unique_keys (bubbles (Example.touching Orange)) = true
  /\ landing_candidates (Example.touching Orange) <> []
  /\ exists fp s2 l1 l2,
      placeBullet Example.hypot (Example.touching Orange) = Some (fp, s2)
      /\ In fp (landing_candidates (Example.touching Orange))
      /\ bubbles (Example.touching Orange) = l1 ++ (fp, None) :: l2
      /\ bubbles s2 = l1 ++ (fp, Some Orange) :: l2.
Proof.
  assert (landing_candidates (Example.touching Orange) <> []) as NE
      by (vm_compute; discriminate).
  split; [reflexivity|]. split; [exact NE|].
  destruct (landing_takes_nearest_empty_neighbour
              Example.hypot (Example.touching Orange) eq_refl NE eq_refl)
    as [_ (fp & s2 & l1 & l2 & P & I & G & _ & _ & G2 & _)].
  exists fp, s2, l1, l2. auto.
Defined.

(** C3: the score after the orange shot. *)
Lemma score_accounting_witness :
  unique_keys (bubbles (Example.round Example.grid Orange)) = true
  /\ exists s',
      play Example.hypot Example.sampler Example.counterclockwise Example.clockwise
           10 [MouseDown] (Example.round Example.grid Orange) = Returns s'
      /\ (score s' + 10 * Z.of_nat (colored_count (bubbles s')) = 0 + 10 * 5 - 10 * 0)%Z.
Proof.
  split; [reflexivity|]. eexists.
  assert (forall A B : Prop, A -> (A -> B) -> A /\ B) as both by tauto.
  apply both; [vm_compute; reflexivity|]. intros P.
  pose proof (proj1 (proj2 (proj2 (proj2
                (score_accounting Example.hypot Example.sampler
                                  Example.counterclockwise Example.clockwise
                                  (Example.round Example.grid Orange) eq_refl))))
                10 [MouseDown] _ P) as H.
  vm_compute in H. vm_compute. exact H.
Defined.

(** C5: the keys after a shot, a move of the pointer and a second shot. *)
Lemma grid_keys_invariant_witness :
  unique_keys (bubbles (Example.round Example.grid Blue)) = true
  /\ exists s',
      play Example.hypot Example.sampler Example.counterclockwise Example.clockwise
           50 [MouseDown; MouseMove (Vec2D.mk 500%float 100%float); MouseDown]
           (Example.round Example.grid Blue) = Returns s'
      /\ Obj.keys (bubbles s') = Obj.keys Example.grid.
Proof.
  split; [reflexivity|]. eexists.
  assert (forall A B : Prop, A -> (A -> B) -> A /\ B) as both by tauto.
  apply both; [vm_compute; reflexivity|]. intros P.
  exact (proj2 (proj2 (proj2
           (grid_keys_invariant Example.hypot Example.sampler
                                Example.counterclockwise Example.clockwise
                                (Example.round Example.grid Blue) eq_refl)))
           50 [MouseDown; MouseMove (Vec2D.mk 500%float 100%float); MouseDown]
           _ P).
Defined.

(** C6: the cells around [(0.5, 2)] in the example. *)
Lemma surrounding_at_most_six_witness :
  unique_keys Example.grid = true
  /\ distinct_positions (Obj.keys Example.grid) = true
  /\ List.length (getSurroundingBubbles Example.grid (Vec2D.mk 0.5%float 2%float) None) <= 6.
Proof.
  split; [reflexivity|]. split; [reflexivity|].
  exact (proj1 (surrounding_at_most_six Example.grid (Vec2D.mk 0.5%float 2%float) None
                                        eq_refl eq_refl)).
Defined.

(** C8: the pointer at offset (400, 600) aims at [(0, 0)], and the shot
    fired then, on a grid without bubble, has not returned after 1000 turns. *)
Lemma zero_aim_shot_never_returns_witness :
  canvas2Math (Vec2D.mk 400%float 600%float) = Vec2D.mk 0%float 0%float
  /\ every_null Example.empty_grid = true
  /\ Example.hypot 0%float 0%float = 0%float
  /\ fireBullet Example.hypot Example.sampler 1000
                (set_gun (canvas2Math (Vec2D.mk 400%float 600%float))
                         (Example.round Example.empty_grid Orange))
     = OutOfFuel.
Proof.
  split; [reflexivity|]. split; [reflexivity|]. split; [reflexivity|].
  exact (proj2 (zero_aim_shot_never_returns
                  Example.hypot Example.sampler 1000
                  (set_gun (canvas2Math (Vec2D.mk 400%float 600%float))
                           (Example.round Example.empty_grid Orange))
                  eq_refl eq_refl eq_refl eq_refl)).
Defined.

(** X12: the shot straight up on the same grid is lost after 43 turns. *)
Lemma straight_up_shot_is_lost_witness :
  shot_exit Example.hypot Example.sampler 43 (Example.round Example.empty_grid Orange)
  = Some Penalised.
Proof.
  exact (proj1 (straight_up_shot_is_lost
                  Example.hypot Example.sampler 43
                  (Example.round Example.empty_grid Orange)
                  eq_refl eq_refl eq_refl eq_refl eq_refl (le_n 43))).
Defined.

(** C10: the blue bubble of the example stays. *)
Lemma isolated_landing_stays_witness :
  unique_keys (bubbles (Example.touching Blue)) = true
  /\ explode 6 (Example.placed Blue) (key2Coord Example.landing_cell)
     = Some (Example.placed Blue)
  /\ Obj.get (bubbles (Example.placed Blue)) Example.landing_cell = Some (Some Blue)
  /\ landBullet Example.hypot Example.sampler 6 (Example.touching Blue)
     = Returns (newRound Example.sampler (Example.placed Blue)).
Proof.
  split; [reflexivity|].
  destruct (isolated_landing_stays Example.hypot Example.sampler 5
              (Example.touching Blue) (Example.placed Blue) Example.landing_cell
              eq_refl eq_refl eq_refl)
    as (E & G & L & _).
  auto.
Defined.

(** X1: the free cells around [(0.5, 2)] in the example. *)
Lemma getSurroundingBubbles_complete_witness :
  unique_keys Example.grid = true
  /\ getSurroundingBubbles Example.grid (Vec2D.mk 0.5%float 2%float) None
     = filter (surrounds (Vec2D.mk 0.5%float 2%float) None) Example.grid.
Proof.
  split; [reflexivity|].
  exact (proj1 (getSurroundingBubbles_complete
                  Example.grid (Vec2D.mk 0.5%float 2%float) None eq_refl)).
Defined.

(** X2: on the grid without Empty cell the landing throws. *)
Lemma landBullet_throws_iff_witness :
  unique_keys (bubbles (Example.walled Orange)) = true
  /\ landing_candidates (Example.walled Orange) = []
  /\ landBullet Example.hypot Example.sampler 5 (Example.walled Orange) = Throws.
Proof.
  split; [reflexivity|]. split; [reflexivity|].
  apply (proj2 (proj1 (landBullet_throws_iff Example.hypot Example.sampler 5
                                             (Example.walled Orange) eq_refl))).
  left. reflexivity.
Defined.

(** X3: the first shot on that grid throws, and so does a shot after the
    pointer has moved. *)
Lemma throw_blocks_the_game_witness :
  fireBullet Example.hypot Example.sampler 5 (Example.round Example.full_grid Orange)
  = Throws
  /\ exists s1,
      flight Example.hypot Example.sampler 5
             (aim Example.hypot (Example.round Example.full_grid Orange))
             (Example.round Example.full_grid Orange)
      = Some (AboutToCollide, s1)
      /\ play Example.hypot Example.sampler Example.counterclockwise Example.clockwise
              5 [MouseMove (Vec2D.mk 100%float 100%float); MouseDown] s1
         = Throws.
Proof.
  assert (fireBullet Example.hypot Example.sampler 5
                     (Example.round Example.full_grid Orange) = Throws) as T
      by (vm_compute; reflexivity).
  split; [exact T|].
  destruct (throw_blocks_the_game
              Example.hypot Example.sampler Example.counterclockwise Example.clockwise
              5 (Example.round Example.full_grid Orange) T)
    as (s1 & F & _ & _ & _ & _ & _ & _ & P).
  exists s1. split; [exact F|]. apply (P 4%nat). right. left. reflexivity.
Defined.

(** X4: the explosion of the example, run a second time. *)
Lemma explode_idempotent_witness :
  unique_keys (bubbles (Example.placed Orange)) = true
  /\ exists s',
      explode 6 (Example.placed Orange) (key2Coord Example.landing_cell) = Some s'
      /\ explode 1 s' (key2Coord Example.landing_cell) = Some s'.
Proof.
  split; [reflexivity|]. eexists.
  assert (forall A B : Prop, A -> (A -> B) -> A /\ B) as both by tauto.
  apply both; [vm_compute; reflexivity|]. intros E.
  exact (proj1 (explode_idempotent 6 0 (Example.placed Orange) _
                                   (key2Coord Example.landing_cell) eq_refl E)).
Defined.

(** X5: two shots have sampled two colours and left the game at the
    beginning of a round. *)
Lemma shot_starts_new_round_witness :
  unique_keys (bubbles (Example.round Example.grid Blue)) = true
  /\ exists s',
      play Example.hypot Example.sampler Example.counterclockwise Example.clockwise
           50 [MouseDown; MouseMove (Vec2D.mk 500%float 100%float); MouseDown]
           (Example.round Example.grid Blue) = Returns s'
      /\ sampled s' = 2
      /\ bullet s' = createBullet /\ time s' = 0%float.
Proof.
  split; [reflexivity|]. eexists.
  assert (forall A B : Prop, A -> (A -> B) -> A /\ B) as both by tauto.
  apply both; [vm_compute; reflexivity|]. intros P.
  destruct (proj2 (shot_starts_new_round
                     Example.hypot Example.sampler
                     Example.counterclockwise Example.clockwise
                     50 (Example.round Example.grid Blue) eq_refl)
                  _ _ P) as [Sa R].
  split; [exact Sa|]. exact (R eq_refl eq_refl).
Defined.

(** X6: a shot on the grid without bubble. *)
Lemma won_game_stays_won_witness :
  every_null (bubbles (Example.round Example.empty_grid Orange)) = true
  /\ exists s',
      fireBullet Example.hypot Example.sampler 43
                 (Example.round Example.empty_grid Orange) = Returns s'
      /\ score s' = (-10)%Z
      /\ scoreWrites s' = [YOU_WON; SCORE (-10)].
Proof.
  split; [reflexivity|]. eexists.
  assert (forall A B : Prop, A -> (A -> B) -> A /\ B) as both by tauto.
  apply both; [vm_compute; reflexivity|]. intros F.
  destruct (proj1 (proj2 (won_game_stays_won
                            Example.hypot Example.sampler
                            Example.counterclockwise Example.clockwise
                            43 (Example.round Example.empty_grid Orange) eq_refl))
                  _ F) as (_ & _ & Sc & W).
  split; [exact Sc|exact W].
Defined.

(** X11: the gun pointing up, turned left and turned right. *)
Lemma rotate_mirror_witness :
  Vec2D.y (rotate Example.counterclockwise Example.clockwise
                  (mirror (Vec2D.mk 0%float 1%float)) Right)
  = Vec2D.y (rotate Example.counterclockwise Example.clockwise
                    (Vec2D.mk 0%float 1%float) Left).
Proof.
  exact (proj1 (proj1 (rotate_mirror
                         Example.counterclockwise Example.clockwise
                         0.9999619230641713%float 0.008726535498373935%float
                         (Vec2D.mk 0%float 1%float) eq_refl eq_refl))).
Defined.
